(** * mpl_interactions.generic: zoom_factory, panhandler, image_segmenter

    A shallow embedding of [src/mpl_interactions/generic.py] and the
    properties of its scroll-zoom handler, its pan handler and its lasso
    segmenter.

    Conventions of the embedding.
    - The numbers the zoom handler and the lasso test compute with are
      binary64 floats, as in Python and numpy.  The mask values and the
      colours of the segmenter, which the code stores, copies and compares
      with small integers but never computes with, are rationals ([Q]).
    - An operation that Python cannot carry out (a [None] operand, a zero
      divisor, an index out of range) is an explicit exception.
    - Python objects mutated in place are threaded as explicit state; a
      callback that can raise half-way through its writes returns the
      exception together with the state as it was left at the raise.
    - matplotlib and numpy are external collaborators; what the code needs
      from them is modelled at their interface and said so where it is. *)

From Stdlib Require Import String DecimalString QArith ZArith.
From Stdlib Require Import Lia Bool Arith.
From Stdlib Require Import Uint63 Floats.
From Stdlib Require Import List FinFun.
Import ListNotations.

(** ** Python exceptions and results *)

Inductive exn : Type :=
| TypeError
| ZeroDivisionError
| IndexError
| ValueError
| AttributeError.

Inductive result (A : Type) : Type :=
| Ok (a : A)
| Raise (e : exn).
Arguments Ok {A} a.
Arguments Raise {A} e.

Definition bind {A B : Type} (r : result A) (k : A -> result B) : result B :=
  match r with
  | Ok a => k a
  | Raise e => Raise e
  end.

Notation "x <- e ;; k" := (bind e (fun x => k))
  (at level 61, e at next level, right associativity).

(** ** zoom_factory *)

Module Zoom.
Open Scope float_scope.

(** A pair of axis limits, [ax.get_xlim()]: two binary64 floats of
    numpy. *)
Definition lim : Type := (float * float)%type.

(** What the handler reads and writes on the matplotlib side: the limits of
    the axes and the toolbar's view stack ([toolbar.push_current]). *)
Record axes : Type := {
  xlim : lim;
  ylim : lim;
  nav_stack : list (lim * lim)
}.

(** A scroll event: [event.button] is a string, [event.xdata] and
    [event.ydata] are [None] when the cursor is over no axes. *)
Record scroll_event : Type := {
  ev_button : string;
  ev_xdata : option float;
  ev_ydata : option float
}.

(** The variables [zoom_fun] closes over. *)
Record zoom_env : Type := {
  base_scale : float;
  orig_xlim : lim;
  orig_ylim : lim;
  orig_yrange : float;
  orig_xrange : float;
  orig_center : float * float
}.

Definition limits_to_range (l : lim) : float := snd l - fst l.

Definition push_current (ax : axes) : axes :=
  {| xlim := xlim ax; ylim := ylim ax;
     nav_stack := (xlim ax, ylim ax) :: nav_stack ax |}.

(** The body of [zoom_factory] up to the definition of [zoom_fun]. *)
Definition zoom_factory (ax : axes) (base : float) : zoom_env * axes :=
  let ax1 := push_current ax in
  let oxl := xlim ax1 in
  let oyl := ylim ax1 in
  ({| base_scale := base;
      orig_xlim := oxl;
      orig_ylim := oyl;
      orig_yrange := limits_to_range oyl;
      orig_xrange := limits_to_range oxl;
      orig_center := ((fst oxl + snd oxl) / 2, (fst oyl + snd oyl) / 2) |},
   ax1).

(** Python's [/] on Python numbers, as in [1/base_scale]: a zero divisor
    raises.  The other divisions of the handler have numpy floats as
    operands ([event.xdata] and the limits are numpy floats); those never
    raise, a zero divisor gives an infinity or NaN there. *)
Definition py_div (a b : float) : result float :=
  if is_zero b then Raise ZeroDivisionError else Ok (a / b).

(** Arithmetic on [event.xdata]: [None - float] is a [TypeError]. *)
Definition data_coord (d : option float) : result float :=
  match d with
  | Some q => Ok q
  | None => Raise TypeError
  end.

(** Python's [a > b]. *)
Definition gtb (a b : float) : bool := b <? a.

Definition scale_factor_of (z : zoom_env) (event : scroll_event)
  : result float :=
  if String.eqb (ev_button event) "up" then Ok (base_scale z)
  else if String.eqb (ev_button event) "down" then py_div 1 (base_scale z)
  else Ok 1.

(** A call on the axes returns or raises; either way the axes are left in
    some state. *)
Definition step : Type := axes -> option exn * axes.

Definition and_then (c1 c2 : step) : step :=
  fun ax =>
    match c1 ax with
    | (None, ax1) => c2 ax1
    | (Some e, ax1) => (Some e, ax1)
    end.

Definition finite_limits (l : lim) : bool :=
  is_finite (fst l) && is_finite (snd l).

Section Handler.

(** What [set_xlim] and [set_ylim] of matplotlib store for the limits they
    are asked to set: the axis locator's [nonsingular] leaves a pair of
    limits as it is, unless the two are equal or nearly so, which it moves
    apart.  The function belongs to matplotlib; the handler is written
    over any such function. *)
Variable nonsingular : lim -> lim.

(** [ax.set_xlim(l)]: matplotlib refuses a limit that is NaN or infinite
    with a [ValueError], before it changes anything. *)
Definition set_xlim (l : lim) : step :=
  fun ax =>
    if finite_limits l
    then (None, {| xlim := nonsingular l; ylim := ylim ax;
                   nav_stack := nav_stack ax |})
    else (Some ValueError, ax).

Definition set_ylim (l : lim) : step :=
  fun ax =>
    if finite_limits l
    then (None, {| xlim := xlim ax; ylim := nonsingular l;
                   nav_stack := nav_stack ax |})
    else (Some ValueError, ax).

(** [zoom_fun(event)], statement by statement. *)
Definition zoom_fun (z : zoom_env) (event : scroll_event) : step :=
  fun ax =>
    let cur_xlim := xlim ax in
    let cur_ylim := ylim ax in
    let cur_xrange := (snd cur_xlim - fst cur_xlim) * 0.5 in
    let cur_yrange := (snd cur_ylim - fst cur_ylim) * 0.5 in
    let xdata := ev_xdata event in
    let ydata := ev_ydata event in
    match
      (scale_factor <- scale_factor_of z event ;;
       xd <- data_coord xdata ;;
       let new_xlim := (xd - (xd - fst cur_xlim) / scale_factor,
                        xd + (snd cur_xlim - xd) / scale_factor) in
       yd <- data_coord ydata ;;
       let new_ylim := (yd - (yd - fst cur_ylim) / scale_factor,
                        yd + (snd cur_ylim - yd) / scale_factor) in
       let new_yrange := limits_to_range new_ylim in
       let new_xrange := limits_to_range new_xlim in
       let new_ylim :=
         if gtb (abs new_yrange) (abs (orig_yrange z))
         then (snd (orig_center z) - new_yrange / 2,
               snd (orig_center z) + new_yrange / 2)
         else new_ylim in
       let new_xlim :=
         if gtb (abs new_xrange) (abs (orig_xrange z))
         then (fst (orig_center z) - new_xrange / 2,
               fst (orig_center z) + new_xrange / 2)
         else new_xlim in
       Ok (new_xlim, new_ylim))
    with
    | Raise e => (Some e, ax)
    | Ok (new_xlim, new_ylim) =>
        and_then (set_xlim new_xlim)
          (and_then (set_ylim new_ylim)
             (fun ax => (None, push_current ax))) ax
    end.

(** The canvas delivering scroll events one after the other; the first
    exception stops the run. *)
Fixpoint zoom_events (z : zoom_env) (evs : list scroll_event) : step :=
  fun ax =>
    match evs with
    | [] => (None, ax)
    | e :: evs' => and_then (zoom_fun z e) (zoom_events z evs') ax
    end.

(** What the handler leaves as the limits [l] of one axis whose home
    limits are [home], when the limits it computed around the cursor are
    [new]: [new], if the range of [new] does not compare greater than the
    home range, and otherwise the home centre minus and plus half the
    range of [new]. *)
Definition clamp_outcome (home new l : lim) : Prop :=
  (gtb (abs (limits_to_range new)) (abs (limits_to_range home)) = false /\
   l = nonsingular new) \/
  (gtb (abs (limits_to_range new)) (abs (limits_to_range home)) = true /\
   l = nonsingular
         ((fst home + snd home) / 2 - limits_to_range new / 2,
          (fst home + snd home) / 2 + limits_to_range new / 2)).

End Handler.

(** One axis of [zoom_fun]: the limits computed around the cursor, then
    the clamp. *)
Definition rescaled (cur : lim) (d sf : float) : lim :=
  (d - (d - fst cur) / sf, d + (snd cur - d) / sf).

Definition clamped (orig_range centre : float) (new : lim) : lim :=
  if gtb (abs (limits_to_range new)) (abs orig_range)
  then (centre - limits_to_range new / 2, centre + limits_to_range new / 2)
  else new.

(** The width of an axis as the clamp measures it. *)
Definition extent (l : lim) : float := abs (limits_to_range l).

(** The home rectangle and a sample of events, used to exercise the
    handler: the view [0..10] by [0..10], one notch of the wheel at the
    middle of the view with [base_scale = 2].  None of the limits that
    occur is near another, so matplotlib stores them as they are asked
    for. *)
Definition as_requested (l : lim) : lim := l.

Definition home_view : axes :=
  {| xlim := (0, 10); ylim := (0, 10); nav_stack := [] |}.

Definition wheel (b : string) (x y : float) : scroll_event :=
  {| ev_button := b; ev_xdata := Some x; ev_ydata := Some y |}.

(** A view twice as wide as the home view and off its centre, as it is
    after zooming out and panning. *)
Definition panned_view : axes :=
  {| xlim := (0, 20); ylim := (0, 10); nav_stack := [] |}.

(** A view whose x-limits have the home range, [10], when they are
    subtracted, and not when they are recomputed around the cursor: the
    x-limits [1.1 .. 11.1] as binary64 has them. *)
Definition shifted_view : axes :=
  {| xlim := (0x1.199999999999ap+0, 0x1.6333333333333p+3); ylim := (0, 10);
     nav_stack := [] |}.

(** A view whose upper y-limit is so large that the limits computed for a
    zoom-out overflow. *)
Definition tall_view : axes :=
  {| xlim := (0, 10); ylim := (0, 0x1p1023); nav_stack := [] |}.

End Zoom.

(** ** panhandler *)

Module Pan.
Open Scope Z_scope.

(** The callbacks a canvas can hold: the three bound methods of the one
    handler under study, and callbacks that belong to other objects. *)
Inductive callback : Type :=
| cb_press
| cb_release
| cb_mouse_move
| cb_foreign (k : nat).

Definition callback_eqb (f g : callback) : bool :=
  match f, g with
  | cb_press, cb_press => true
  | cb_release, cb_release => true
  | cb_mouse_move, cb_mouse_move => true
  | cb_foreign j, cb_foreign k => Nat.eqb j k
  | _, _ => false
  end.

(** [fig.canvas] as a callback registry, after matplotlib's
    [cbook.CallbackRegistry], which is not part of this repository:
    ids are handed out by a counter; connecting a callback that the signal
    already holds returns the id it has; disconnecting an id that is not
    there (or [None]) does nothing. *)
Record canvas : Type := {
  next_cid : nat;
  callbacks : list (nat * (string * callback))
}.

Definition same_slot (s : string) (f : callback)
  (e : nat * (string * callback)) : bool :=
  String.eqb s (fst (snd e)) && callback_eqb f (snd (snd e)).

Definition mpl_connect (s : string) (f : callback) (c : canvas)
  : nat * canvas :=
  match find (same_slot s f) (callbacks c) with
  | Some e => (fst e, c)
  | None =>
      (next_cid c,
       {| next_cid := S (next_cid c);
          callbacks := callbacks c ++ [(next_cid c, (s, f))] |})
  end.

Definition mpl_disconnect (cid : option nat) (c : canvas) : canvas :=
  match cid with
  | None => c
  | Some n =>
      {| next_cid := next_cid c;
         callbacks := filter (fun e => negb (Nat.eqb (fst e) n)) (callbacks c) |}
  end.

(** A mouse event as the handler reads it. *)
Record mouse_event : Type := {
  ev_button : Z;
  ev_x : option Z;
  ev_y : option Z;
  ev_key : option string
}.

(** One axes of the figure: the three tests [press] makes on it. *)
Record axes : Type := {
  in_axes : mouse_event -> bool;
  get_navigate : bool;
  can_pan : bool
}.

(** Calls made on the matplotlib side, oldest first. *)
Inductive call : Type :=
| start_pan (i : nat) (x y : Z) (b : Z)
| drag_pan (i : nat) (b : Z) (key : option string) (x y : option Z)
| end_pan (i : nat)
| draw_idle.

(** The handler together with the figure it is attached to.  [_xypress] is
    [None] until the attribute is assigned for the first time ([__init__]
    does not assign it); an axes is recorded by its position in
    [fig.get_axes()]. *)
Record panhandler : Type := {
  fig_axes : list axes;
  fig_canvas : canvas;
  button : Z;
  _id_drag : option nat;
  _xypress : option (list nat);
  calls : list call
}.

Definition with_canvas (c : canvas) (h : panhandler) : panhandler :=
  {| fig_axes := fig_axes h; fig_canvas := c; button := button h;
     _id_drag := _id_drag h; _xypress := _xypress h; calls := calls h |}.

Definition with_id_drag (d : option nat) (h : panhandler) : panhandler :=
  {| fig_axes := fig_axes h; fig_canvas := fig_canvas h; button := button h;
     _id_drag := d; _xypress := _xypress h; calls := calls h |}.

Definition with_xypress (l : list nat) (h : panhandler) : panhandler :=
  {| fig_axes := fig_axes h; fig_canvas := fig_canvas h; button := button h;
     _id_drag := _id_drag h; _xypress := Some l; calls := calls h |}.

Definition record_call (k : call) (h : panhandler) : panhandler :=
  {| fig_axes := fig_axes h; fig_canvas := fig_canvas h; button := button h;
     _id_drag := _id_drag h; _xypress := _xypress h;
     calls := calls h ++ [k] |}.

(** Reading [self._xypress]. *)
Definition get_xypress (h : panhandler) : result (list nat) :=
  match _xypress h with
  | Some l => Ok l
  | None => Raise AttributeError
  end.

(** Python's truth value of [self._id_drag]: [None] and [0] are false. *)
Definition truthy (d : option nat) : bool :=
  match d with
  | Some (S _) => true
  | _ => false
  end.

(** [panhandler.__init__(fig, button)]. *)
Definition init (axs : list axes) (c : canvas) (b : Z) : panhandler :=
  let c1 := snd (mpl_connect "button_press_event" cb_press c) in
  let c2 := snd (mpl_connect "button_release_event" cb_release c1) in
  {| fig_axes := axs; fig_canvas := c2; button := b;
     _id_drag := None; _xypress := None; calls := [] |}.

Definition _cancel_action (h : panhandler) : panhandler :=
  let h := with_xypress [] h in
  if truthy (_id_drag h)
  then with_id_drag None
         (with_canvas (mpl_disconnect (_id_drag h) (fig_canvas h)) h)
  else h.

(** The body of the [for] loop of [press] for the axes at position [i]. *)
Definition press_axes (event : mouse_event) (i : nat) (a : axes)
  (h : panhandler) : result panhandler :=
  match ev_x event, ev_y event with
  | Some x, Some y =>
      if in_axes a event && get_navigate a && can_pan a then
        let h := record_call (start_pan i x y (ev_button event)) h in
        l <- get_xypress h ;;
        let h := with_xypress (l ++ [i]) h in
        let (cid, c) :=
          mpl_connect "motion_notify_event" cb_mouse_move (fig_canvas h) in
        Ok (with_id_drag (Some cid) (with_canvas c h))
      else Ok h
  | _, _ => Ok h
  end.

Fixpoint press_loop (event : mouse_event) (i : nat) (axs : list axes)
  (h : panhandler) : result panhandler :=
  match axs with
  | [] => Ok h
  | a :: axs' =>
      h' <- press_axes event i a h ;; press_loop event (S i) axs' h'
  end.

Definition press (event : mouse_event) (h : panhandler)
  : result panhandler :=
  if negb (Z.eqb (ev_button event) (button h)) then Ok (_cancel_action h)
  else
    let h := with_xypress [] h in
    press_loop event 0%nat (fig_axes h) h.

Definition release (event : mouse_event) (h : panhandler)
  : result panhandler :=
  let h := _cancel_action h in
  let h := with_canvas (mpl_disconnect (_id_drag h) (fig_canvas h)) h in
  l <- get_xypress h ;;
  let h := fold_left (fun h i => record_call (end_pan i) h) l h in
  l' <- get_xypress h ;;
  match l' with
  | [] => Ok (_cancel_action h)
  | _ :: _ => Ok (_cancel_action h)
  end.

Definition _mouse_move (event : mouse_event) (h : panhandler)
  : result panhandler :=
  l <- get_xypress h ;;
  let h :=
    fold_left
      (fun h i =>
         record_call (drag_pan i 1 (ev_key event) (ev_x event) (ev_y event)) h)
      l h in
  Ok (record_call draw_idle h).

(** The events the canvas delivers, and its dispatch: a method runs when
    the canvas holds it for the signal of the event. *)
Inductive gui_event : Type :=
| Press (e : mouse_event)
| Motion (e : mouse_event)
| Release (e : mouse_event).

Definition connected (s : string) (f : callback) (c : canvas) : bool :=
  existsb (same_slot s f) (callbacks c).

Definition dispatch (g : gui_event) (h : panhandler) : result panhandler :=
  match g with
  | Press e =>
      if connected "button_press_event" cb_press (fig_canvas h)
      then press e h else Ok h
  | Motion e =>
      if connected "motion_notify_event" cb_mouse_move (fig_canvas h)
      then _mouse_move e h else Ok h
  | Release e =>
      if connected "button_release_event" cb_release (fig_canvas h)
      then release e h else Ok h
  end.

Fixpoint run (gs : list gui_event) (h : panhandler) : result panhandler :=
  match gs with
  | [] => Ok h
  | g :: gs' => h' <- dispatch g h ;; run gs' h'
  end.

(** The ids under which the canvas holds [_mouse_move] for motion
    events. *)
Definition drag_listeners (c : canvas) : list nat :=
  map fst
    (filter (same_slot "motion_notify_event" cb_mouse_move) (callbacks c)).

(** A canvas on which the handler's motion callback is not yet
    connected, as is the case before the handler exists. *)
Definition no_drag_listener (c : canvas) : Prop := drag_listeners c = [].

(** The registry and the handler agree: the canvas holds [_mouse_move] at
    most once, under the id kept in [_id_drag], and only once [_xypress]
    has been assigned. *)
Definition agree (h : panhandler) : Prop :=
  match drag_listeners (fig_canvas h) with
  | [] => True
  | [n] => _id_drag h = Some n /\ _xypress h <> None
  | _ :: _ :: _ => False
  end.

(** The test that [press] makes on one axes, and the positions of the
    axes of the figure that pass it, counted from [i]. *)
Definition pannable (event : mouse_event) (a : axes) : bool :=
  in_axes a event && get_navigate a && can_pan a.

Fixpoint hit_from (event : mouse_event) (i : nat) (axs : list axes)
  : list nat :=
  match axs with
  | [] => []
  | a :: axs' =>
      if pannable event a then i :: hit_from event (S i) axs'
      else hit_from event (S i) axs'
  end.

(** The ids in use are not zero: the counter has moved, and the motion
    callback is not held under id 0. *)
Definition nonzero_ids (h : panhandler) : Prop :=
  next_cid (fig_canvas h) <> 0%nat /\
  ~ In 0%nat (drag_listeners (fig_canvas h)).

(** A sample figure, used to exercise the handler: a fresh canvas, two
    axes that lie one over the other and can both be panned, and mouse
    events at one pixel. *)
Definition fresh_canvas : canvas := {| next_cid := 0; callbacks := [] |}.

Definition panel : axes :=
  {| in_axes := fun _ => true; get_navigate := true; can_pan := true |}.

Definition mouse (b : Z) : mouse_event :=
  {| ev_button := b; ev_x := Some 10; ev_y := Some 10; ev_key := None |}.

End Pan.

(** ** image_segmenter *)

Module Segmenter.
Open Scope Z_scope.

(** A vertex of the lasso, [(x, y)] in data coordinates: two binary64
    floats. *)
Definition vertex : Type := (float * float)%type.

(** One row of an [(n, 4)] float array of colours. *)
Record rgba : Type := {
  red : Q;
  green : Q;
  blue : Q;
  alpha : Q
}.

(** The literal [[0,0,0,0]]. *)
Definition transparent : rgba :=
  {| red := 0; green := 0; blue := 0; alpha := 0 |}.

(** A two-dimensional numpy array: its shape and its elements in row-major
    order.  For the overlay, of shape [(H, W, 4)], an element is the
    colour of one pixel. *)
Record ndarray (A : Type) : Type := {
  shape : nat * nat;
  data : list A
}.
Arguments shape {A} n.
Arguments data {A} n.

Definition size (sh : nat * nat) : nat := (fst sh * snd sh)%nat.

Definition shape_eqb (a b : nat * nat) : bool :=
  Nat.eqb (fst a) (fst b) && Nat.eqb (snd a) (snd b).

(** [np.zeros(sh)], with the element that stands for zero. *)
Definition full {A : Type} (sh : nat * nat) (v : A) : ndarray A :=
  {| shape := sh; data := repeat v (size sh) |}.

(** [a == i], elementwise. *)
Definition eq_scalar (a : ndarray Q) (i : Z) : ndarray bool :=
  {| shape := shape a;
     data := map (fun x => Qeq_bool x (inject_Z i)) (data a) |}.

Fixpoint where_set {A : Type} (idx : list bool) (v : A) (l : list A)
  : list A :=
  match idx, l with
  | b :: idx', x :: l' => (if b then v else x) :: where_set idx' v l'
  | _, _ => l
  end.

(** numpy's check of a boolean index against the array it indexes, one
    dimension after the other: a dimension of the index must have the
    length of the array's dimension, unless its own length is zero, in
    which case numpy does not compare. *)
Definition dim_fits (b a : nat) : bool := Nat.eqb b 0 || Nat.eqb b a.

Definition index_fits (b a : nat * nat) : bool :=
  dim_fits (fst b) (fst a) && dim_fits (snd b) (snd a).

(** [a[idx] = v] for a two-dimensional boolean array [idx]: numpy raises
    [IndexError] when a dimension of [idx] that is not empty differs from
    the dimension of [a].  An index of another shape than [a] that passes
    the check has an empty dimension, so it holds no element and nothing is
    written. *)
Definition assign_where {A : Type} (idx : ndarray bool) (v : A)
  (a : ndarray A) : result (ndarray A) :=
  if shape_eqb (shape idx) (shape a)
  then Ok {| shape := shape a; data := where_set (data idx) v (data a) |}
  else if index_fits (shape idx) (shape a) then Ok a
  else Raise IndexError.

(** [flat.reshape(sh)]: numpy raises [ValueError] when the sizes differ. *)
Definition reshape {A : Type} (sh : nat * nat) (flat : list A)
  : result (ndarray A) :=
  if Nat.eqb (length flat) (size sh)
  then Ok {| shape := sh; data := flat |}
  else Raise ValueError.

(** [l[i]] for a Python integer [i]: a negative index counts from the
    end. *)
Definition py_index {A : Type} (l : list A) (i : Z) : result A :=
  let n := Z.of_nat (length l) in
  let j := if i <? 0 then i + n else i in
  if (j <? 0) || (n <=? j) then Raise IndexError
  else match nth_error l (Z.to_nat j) with
       | Some x => Ok x
       | None => Raise IndexError
       end.

(** [l[:n]] for a Python integer [n]. *)
Definition py_take {A : Type} (n : Z) (l : list A) : list A :=
  if n <? 0 then firstn (length l - Z.to_nat (- n)) l
  else firstn (Z.to_nat n) l.

(** [range(n)]. *)
Definition py_range (n : Z) : list Z :=
  map Z.of_nat (seq 0 (Z.to_nat n)).

(** The two colour tables of matplotlib that [__init__] reads, after
    [to_rgba_array]. *)
Record palettes : Type := {
  TABLEAU_COLORS : list rgba;
  XKCD_COLORS : list rgba
}.

Definition set_alpha (a : Q) (c : rgba) : rgba :=
  {| red := red c; green := green c; blue := blue c; alpha := a |}.

(** The attributes of an [image_segmenter] that the lasso callback reads
    or writes.  [shown] is the array last handed to
    [self._mask.set_data]. *)
Record image_segmenter : Type := {
  mask_alpha : Q;
  mask_colors : list rgba;
  img_shape : nat * nat;
  mask : ndarray Q;
  _overlay : ndarray rgba;
  nclasses : Z;
  pix : list (Z * Z);
  current_class : Z;
  erasing : bool;
  verts : option (list vertex);
  indices : option (ndarray bool);
  shown : ndarray rgba
}.

Definition with_mask (m : ndarray Q) (s : image_segmenter) :=
  {| mask_alpha := mask_alpha s; mask_colors := mask_colors s;
     img_shape := img_shape s; mask := m; _overlay := _overlay s;
     nclasses := nclasses s; pix := pix s;
     current_class := current_class s; erasing := erasing s;
     verts := verts s; indices := indices s; shown := shown s |}.

Definition with_overlay (o : ndarray rgba) (s : image_segmenter) :=
  {| mask_alpha := mask_alpha s; mask_colors := mask_colors s;
     img_shape := img_shape s; mask := mask s; _overlay := o;
     nclasses := nclasses s; pix := pix s;
     current_class := current_class s; erasing := erasing s;
     verts := verts s; indices := indices s; shown := shown s |}.

Definition with_current_class (c : Z) (s : image_segmenter) :=
  {| mask_alpha := mask_alpha s; mask_colors := mask_colors s;
     img_shape := img_shape s; mask := mask s; _overlay := _overlay s;
     nclasses := nclasses s; pix := pix s;
     current_class := c; erasing := erasing s;
     verts := verts s; indices := indices s; shown := shown s |}.

Definition with_erasing (b : bool) (s : image_segmenter) :=
  {| mask_alpha := mask_alpha s; mask_colors := mask_colors s;
     img_shape := img_shape s; mask := mask s; _overlay := _overlay s;
     nclasses := nclasses s; pix := pix s;
     current_class := current_class s; erasing := b;
     verts := verts s; indices := indices s; shown := shown s |}.

Definition with_verts (v : list vertex) (s : image_segmenter) :=
  {| mask_alpha := mask_alpha s; mask_colors := mask_colors s;
     img_shape := img_shape s; mask := mask s; _overlay := _overlay s;
     nclasses := nclasses s; pix := pix s;
     current_class := current_class s; erasing := erasing s;
     verts := Some v; indices := indices s; shown := shown s |}.

Definition with_indices (i : ndarray bool) (s : image_segmenter) :=
  {| mask_alpha := mask_alpha s; mask_colors := mask_colors s;
     img_shape := img_shape s; mask := mask s; _overlay := _overlay s;
     nclasses := nclasses s; pix := pix s;
     current_class := current_class s; erasing := erasing s;
     verts := verts s; indices := Some i; shown := shown s |}.

Definition with_shown (o : ndarray rgba) (s : image_segmenter) :=
  {| mask_alpha := mask_alpha s; mask_colors := mask_colors s;
     img_shape := img_shape s; mask := mask s; _overlay := _overlay s;
     nclasses := nclasses s; pix := pix s;
     current_class := current_class s; erasing := erasing s;
     verts := verts s; indices := indices s; shown := o |}.

(** The colour table of [__init__]: the palette, or the caller's colours,
    with the last column overwritten by [mask_alpha]. *)
Definition init_colors (pal : palettes) (ncls : Z)
  (colors : option (list rgba)) (a : Q) : list rgba :=
  let base :=
    match colors with
    | None =>
        if ncls <=? 10 then py_take ncls (TABLEAU_COLORS pal)
        else py_take ncls (XKCD_COLORS pal)
    | Some cs => cs
    end in
  map (set_alpha a) base.

(** One turn of the loop [for i in range(nclasses+1)] of [__init__]. *)
Definition init_overlay_step (colors : list rgba) (m : ndarray Q)
  (o : ndarray rgba) (i : Z) : result (ndarray rgba) :=
  let idx := eq_scalar m i in
  if i =? 0 then assign_where idx transparent o
  else c <- py_index colors (i - 1) ;; assign_where idx c o.

Fixpoint init_overlay_loop (colors : list rgba) (m : ndarray Q)
  (o : ndarray rgba) (ks : list Z) : result (ndarray rgba) :=
  match ks with
  | [] => Ok o
  | i :: ks' =>
      o' <- init_overlay_step colors m o i ;;
      init_overlay_loop colors m o' ks'
  end.

(** [np.vstack((xv.flatten(), yv.flatten())).T] for
    [xv, yv = np.meshgrid(arange(W), arange(H))]: the points [(x, y)],
    row after row. *)
Definition make_pix (sh : nat * nat) : list (Z * Z) :=
  flat_map
    (fun r => map (fun c => (Z.of_nat c, Z.of_nat r)) (seq 0 (snd sh)))
    (seq 0 (fst sh)).

(** [self.mask]: zeros of the shape of the image, or the caller's array
    as it is. *)
Definition seeded (sh : nat * nat) (seed : option (ndarray Q)) : ndarray Q :=
  match seed with
  | None => full sh 0%Q
  | Some m => m
  end.

(** [image_segmenter.__init__]; [sh] is [img.shape[:2]].  A seed mask is
    a two-dimensional array, as the mask made without a seed is; seeds of
    another rank are outside the model. *)
Definition init (pal : palettes) (sh : nat * nat) (ncls : Z)
  (seed : option (ndarray Q)) (colors : option (list rgba)) (a : Q)
  : result image_segmenter :=
  let cols := init_colors pal ncls colors a in
  let m := seeded sh seed in
  o <- init_overlay_loop cols m (full sh transparent) (py_range (ncls + 1)) ;;
  Ok {| mask_alpha := a; mask_colors := cols; img_shape := sh;
        mask := m; _overlay := o; nclasses := ncls;
        pix := make_pix sh; current_class := 1; erasing := false;
        verts := None; indices := None; shown := o |}.

(** A callback either returns or raises; either way the object is left in
    some state. *)
Definition step : Type := image_segmenter -> option exn * image_segmenter.

Definition and_then (c1 c2 : step) : step :=
  fun s =>
    match c1 s with
    | (None, s1) => c2 s1
    | (Some e, s1) => (Some e, s1)
    end.

Definition set_mask_where (idx : ndarray bool) (v : Q) : step :=
  fun s =>
    match assign_where idx v (mask s) with
    | Ok m => (None, with_mask m s)
    | Raise e => (Some e, s)
    end.

Definition set_overlay_where (idx : ndarray bool) (c : result rgba) : step :=
  fun s =>
    match (v <- c ;; assign_where idx v (_overlay s)) with
    | Ok o => (None, with_overlay o s)
    | Raise e => (Some e, s)
    end.

Definition set_data : step :=
  fun s => (None, with_shown (_overlay s) s).

(** *** matplotlib's Path.contains_points

    [_onselect] hands the lasso to [Path(verts).contains_points(pix,
    radius=0)] of matplotlib, which this repository calls and does not
    contain.  The definitions below follow matplotlib, [Path.__init__] and
    the even-odd crossing test of [points_in_path] and
    [point_in_path_impl] in its [src/_path.h], for a path built from
    vertices only (no codes) and the radius 0; the arithmetic is
    binary64. *)

(** [Path(verts)]: the vertices must make an array of shape [(n, 2)],
    which the empty list does not. *)
Definition Path (vs : list vertex) : result (list vertex) :=
  match vs with
  | [] => Raise ValueError
  | _ :: _ => Ok vs
  end.

(** An entry of [pix], an integer of numpy, as the double the test reads. *)
Definition to_double (z : Z) : float :=
  if z <? 0 then (- PrimFloat.of_uint63 (Uint63.of_Z (- z)))%float
  else PrimFloat.of_uint63 (Uint63.of_Z z).

Definition finite_vertex (v : vertex) : bool :=
  is_finite (fst v) && is_finite (snd v).

(** The path as the test walks it: a vertex with a NaN or infinite
    coordinate is dropped, and the finite vertex after it starts a new
    subpath. *)
Fixpoint split_at_nan (vs : list vertex) : list (list vertex) :=
  match vs with
  | [] => [[]]
  | v :: vs' =>
      if finite_vertex v then
        match split_at_nan vs' with
        | sub :: subs => (v :: sub) :: subs
        | [] => [[v]]
        end
      else [] :: split_at_nan vs'
  end.

Definition subpaths (vs : list vertex) : list (list vertex) :=
  filter (fun sub => match sub with [] => false | _ :: _ => true end)
    (split_at_nan vs).

(** Whether the ray from the point [(tx, ty)] towards +x crosses the edge
    from [(vtx0, vty0)] to [(vtx1, vty1)]: the ends of the edge must lie
    on different sides of the ray, a vertex at the height of the point
    counting as above it. *)
Definition crosses (p0 p1 t : vertex) : bool :=
  let '(vtx0, vty0) := p0 in
  let '(vtx1, vty1) := p1 in
  let '(tx, ty) := t in
  let yflag0 := (ty <=? vty0)%float in
  let yflag1 := (ty <=? vty1)%float in
  if Bool.eqb yflag0 yflag1 then false
  else
    Bool.eqb
      ((vtx1 - tx) * (vty0 - vty1) <=? (vty1 - ty) * (vtx0 - vtx1))%float
      yflag1.

(** The parity of the crossings with the edges of the polyline that starts
    at [p0] and runs through [rest]. *)
Fixpoint crossings (p0 : vertex) (rest : list vertex) (t : vertex) : bool :=
  match rest with
  | [] => false
  | p1 :: rest' => xorb (crosses p0 p1 t) (crossings p1 rest' t)
  end.

(** One subpath.  The subpath that ends the path is closed by an edge from
    its last vertex back to its first; a subpath that another one follows
    is tested as it is. *)
Definition subpath_flag (closed : bool) (sub : list vertex) (t : vertex)
  : bool :=
  match sub with
  | [] => false
  | start :: rest =>
      xorb (crossings start rest t)
           (closed && crosses (last rest start) start t)
  end.

(** A point is inside the path when it is inside one of its subpaths. *)
Fixpoint inside_flag (subs : list (list vertex)) (t : vertex) : bool :=
  match subs with
  | [] => false
  | sub :: subs' =>
      match subs' with
      | [] => subpath_flag true sub t
      | _ :: _ => subpath_flag false sub t || inside_flag subs' t
      end
  end.

(** [Path(vs).contains_points(pts, radius=0)]: a path of fewer than three
    vertices contains no point. *)
Definition path_contains_points (vs : list vertex) (pts : list (Z * Z))
  : result (list bool) :=
  p <- Path vs ;;
  Ok (map (fun pt =>
             if (length p <? 3)%nat then false
             else inside_flag (subpaths p)
                    (to_double (fst pt), to_double (snd pt)))
          pts).

Section Lasso.

(** [Path(verts).contains_points(points, radius=0)]: one boolean per point,
    or an exception for vertices that make no path.  The callback is
    written over any such function; [path_contains_points] is the one
    matplotlib provides. *)
Variable contains_points : list vertex -> list (Z * Z) -> result (list bool).

(** [image_segmenter._onselect(verts)]. *)
Definition _onselect (vs : list vertex) : step :=
  fun s =>
    let s := with_verts vs s in
    match (flat <- contains_points vs (pix s) ;;
           reshape (shape (mask s)) flat) with
    | Raise e => (Some e, s)
    | Ok idx =>
        let s := with_indices idx s in
        and_then
          (if erasing s then
             and_then (set_mask_where idx 0%Q)
                      (set_overlay_where idx (Ok transparent))
           else
             and_then
               (set_mask_where idx (inject_Z (current_class s)))
               (set_overlay_where idx
                  (py_index (mask_colors s) (current_class s - 1))))
          set_data s
    end.

(** The rasterizer returned one boolean per element of the mask, and mask
    and overlay have one shape. *)
Definition lasso_fits (vs : list vertex) (s : image_segmenter)
  (flat : list bool) : Prop :=
  contains_points vs (pix s) = Ok flat /\
  length flat = size (shape (mask s)) /\
  shape (_overlay s) = shape (mask s).

End Lasso.

(** The element of a flat array at pixel [(x, y)] of a grid [W] wide. *)
Definition at_xy {A : Type} (W : nat) (l : list A) (x y : nat) : option A :=
  nth_error l (y * W + x).

(** The colour of label [i]: transparent for [0], the table entry [i-1]
    for a class. *)
Definition class_color (colors : list rgba) (i : Z) : rgba :=
  if i =? 0 then transparent else nth (Z.to_nat (i - 1)) colors transparent.

(** A mask value that is one of the integers [0..ncls]. *)
Definition in_label_range (ncls : Z) (m : Q) : Prop :=
  exists i : Z, 0 <= i <= ncls /\ (m == inject_Z i)%Q.

(** Mask value [m] and overlay entry [o] of one pixel agree: an unlabelled
    pixel has the overlay [[0,0,0,0]]; a labelled pixel is not fully
    transparent and has the table colour of its class, whose alpha is
    [a]. *)
Definition pixel_agrees (colors : list rgba) (a : Q) (m : Q) (o : rgba)
  : Prop :=
  ((m == 0)%Q -> o = transparent) /\
  (~ (m == 0)%Q ->
   ~ (alpha o == 0)%Q /\
   exists c : Z,
     1 <= c /\ (m == inject_Z c)%Q /\
     nth_error colors (Z.to_nat (c - 1)) = Some o /\ alpha o = a).

(** Mask and overlay agree pixel by pixel. *)
Definition consistent (s : image_segmenter) : Prop :=
  shape (_overlay s) = shape (mask s) /\
  Forall2 (pixel_agrees (mask_colors s) (mask_alpha s))
    (data (mask s)) (data (_overlay s)).

(** The colour table carries the configured alpha, which is not zero. *)
Definition table_ok (s : image_segmenter) : Prop :=
  ~ (mask_alpha s == 0)%Q /\
  Forall (fun c => alpha c = mask_alpha s) (mask_colors s).

(** What the loop of [__init__] does to the overlay entry [o] of a pixel
    whose mask value is [m]. *)
Definition loop_pixel (colors : list rgba) (ks : list Z) (m : Q) (o : rgba)
  : rgba :=
  fold_left
    (fun o i => if Qeq_bool m (inject_Z i) then class_color colors i else o)
    ks o.

(** The array [a] after [a[idx] = v], for the flat index [flat]. *)
Definition painted {A : Type} (flat : list bool) (v : A) (a : ndarray A)
  : ndarray A :=
  {| shape := shape a; data := where_set flat v (data a) |}.

(** The attributes that [_onselect] only reads. *)
Definition same_config (s s' : image_segmenter) : Prop :=
  mask_alpha s' = mask_alpha s /\ mask_colors s' = mask_colors s /\
  img_shape s' = img_shape s /\ nclasses s' = nclasses s /\
  pix s' = pix s /\ current_class s' = current_class s /\
  erasing s' = erasing s.

(** Sample inputs, used to exercise the segmenter.  The ten Tableau
    colours of matplotlib; the XKCD table, needed only for more than ten
    classes, is left empty. *)
Definition hex (r g b : Z) : rgba :=
  {| red := r # 255; green := g # 255; blue := b # 255; alpha := 1 |}.

Definition tableau : palettes :=
  {| TABLEAU_COLORS :=
       [hex 31 119 180; hex 255 127 14; hex 44 160 44; hex 214 39 40;
        hex 148 103 189; hex 140 86 75; hex 227 119 194; hex 127 127 127;
        hex 188 189 34; hex 23 190 207];
     XKCD_COLORS := [] |}.

(** A lasso around the pixel [(0, 0)]. *)
Definition around_origin : list vertex :=
  [(-1, -1); (1, -1); (1, 1); (-1, 1)]%float.

(** The lasso along the border of the square [2 <= x <= 7],
    [2 <= y <= 7], and the pixels of that square, its border included. *)
Definition square_lasso : list vertex :=
  [(2, 2); (7, 2); (7, 7); (2, 7)]%float.

Definition in_square (p : Z * Z) : bool :=
  (2 <=? fst p) && (fst p <=? 7) && (2 <=? snd p) && (snd p <=? 7).

(** The pixels of the square without its row [y = 2]. *)
Definition above_first_row (p : Z * Z) : bool :=
  (2 <=? fst p) && (fst p <=? 7) && (3 <=? snd p) && (snd p <=? 7).

(** The object that [__init__] returns for the Tableau palette and
    [mask_alpha = 0.75], given the mask and the overlay it computed. *)
Definition constructed (sh : nat * nat) (ncls : Z) (m : ndarray Q)
  (o : ndarray rgba) : image_segmenter :=
  {| mask_alpha := 3 # 4;
     mask_colors := init_colors tableau ncls None (3 # 4);
     img_shape := sh; mask := m; _overlay := o; nclasses := ncls;
     pix := make_pix sh; current_class := 1; erasing := false;
     verts := None; indices := None; shown := o |}.

(** A blank 10 by 10 and a blank 1 by 1 segmenter with one class. *)
Definition blank10 : image_segmenter :=
  constructed (10%nat, 10%nat) 1
    (full (10%nat, 10%nat) 0%Q) (full (10%nat, 10%nat) transparent).

Definition blank1 : image_segmenter :=
  constructed (1%nat, 1%nat) 1
    (full (1%nat, 1%nat) 0%Q) (full (1%nat, 1%nat) transparent).

(** A 1 by 1 seed mask holding the label 2. *)
Definition seed2 : ndarray Q := {| shape := (1%nat, 1%nat); data := [2%Q] |}.

(** The segmenter made from [seed2] with two classes: the overlay holds
    the second Tableau colour. *)
Definition labelled : image_segmenter :=
  constructed (1%nat, 1%nat) 2 seed2
    {| shape := (1%nat, 1%nat);
       data := [set_alpha (3 # 4) (hex 255 127 14)] |}.

(** The segmenter made from [seed2] with one class only. *)
Definition stray : image_segmenter :=
  constructed (1%nat, 1%nat) 1 seed2 (full (1%nat, 1%nat) transparent).

End Segmenter.

(** ** heatmap_slicer *)

Module Slicer.
Open Scope Z_scope.

(** The argument [heatmap_names]: [None], one string, or a list of
    names. *)
Inductive names_arg : Type :=
| NoNames
| NameStr (name : string)
| NameList (names : list string).

(** What [heatmap_slicer] has worked out when it calls [subplots]: the
    flags and axis positions of the trace panels, the shape of
    [heatmaps], the names of the panels and the number of axes to make. *)
Record layout : Type := {
  horiz : bool;
  vert : bool;
  num_line_axes : nat;
  horiz_axis : Z;
  vert_axis : Z;
  heatmaps_shape : list nat;
  heatmap_names : list string;
  num_axes : nat
}.

(** The first statement, on [slices]. *)
Definition slices_flags (slices : string)
  : result (bool * bool * nat * Z * Z) :=
  if String.eqb slices "both" then Ok (true, true, 2%nat, -2, -1)
  else if String.eqb slices "horizontal" then Ok (true, false, 1%nat, -1, -1)
  else if String.eqb slices "vertical" then Ok (false, true, 1%nat, -1, -1)
  else Raise ValueError.

(** [f'heatmap_{i}']. *)
Definition default_name (i : nat) : string :=
  String.append "heatmap_" (NilEmpty.string_of_uint (Nat.to_uint i)).

(** [heatmaps.shape[0]]: indexing the empty shape of a 0-d array
    raises. *)
Definition shape0 (shape : list nat) : result nat :=
  match shape with
  | n :: _ => Ok n
  | [] => Raise IndexError
  end.

(** The default for [heatmap_names]. *)
Definition names_or_default (shape : list nat) (names : names_arg)
  : result names_arg :=
  match names with
  | NoNames => n <- shape0 shape ;; Ok (NameList (map default_name (seq 0 n)))
  | _ => Ok names
  end.

(** The body of [heatmap_slicer] up to the call of [subplots], for
    [heatmaps] of the given shape. *)
Definition slicer_layout (slices : string) (shape : list nat)
  (names : names_arg) : result layout :=
  f <- slices_flags slices ;;
  let '(h, v, nl, ha, va) := f in
  names <- names_or_default shape names ;;
  if Nat.eqb (length shape) 3 then
    n <- shape0 shape ;;
    match names with
    | NameList l =>
        if negb (Nat.eqb (length l) n) then Raise ValueError
        else Ok {| horiz := h; vert := v; num_line_axes := nl;
                   horiz_axis := ha; vert_axis := va;
                   heatmaps_shape := shape; heatmap_names := l;
                   num_axes := (nl + n)%nat |}
    | _ => Raise ValueError
    end
  else if Nat.eqb (length shape) 2 then
    let l := match names with
             | NameStr s => [s]
             | NameList l => l
             | NoNames => []
             end in
    Ok {| horiz := h; vert := v; num_line_axes := nl;
          horiz_axis := ha; vert_axis := va;
          heatmaps_shape := 1%nat :: shape; heatmap_names := l;
          num_axes := (nl + 1)%nat |}
  else Raise ValueError.

(** The values of [slices] that the function accepts. *)
Definition valid_slices (slices : string) : Prop :=
  slices = "both"%string \/ slices = "horizontal"%string \/
  slices = "vertical"%string.

(** The inputs that get past the checks: 2-d heatmaps with any names, or
    3-d heatmaps with no names or a list of one name per heatmap. *)
Definition accepted (shape : list nat) (names : names_arg) : Prop :=
  (exists r c, shape = [r; c]) \/
  (exists n r c,
      shape = [n; r; c] /\
      (names = NoNames \/
       exists l, names = NameList l /\ length l = n)).

End Slicer.

(** * Properties *)

(** ** The scroll-zoom handler *)

Module ZoomFacts.
Import Zoom.
Open Scope float_scope.

Lemma bind_ok {A B : Type} (r : result A) (k : A -> result B) (b : B) :
  bind r k = Ok b -> exists a, r = Ok a /\ k a = Ok b.
Proof.
  destruct r as [a|e]; simpl; intro H; [exists a; auto | discriminate].
Qed.

Lemma scale_factor_other (z : zoom_env) (e : scroll_event) :
  ev_button e <> "up"%string -> ev_button e <> "down"%string ->
  scale_factor_of z e = Ok 1.
Proof.
  intros Hu Hd. unfold scale_factor_of.
  apply String.eqb_neq in Hu. apply String.eqb_neq in Hd.
  rewrite Hu, Hd. reflexivity.
Qed.

Lemma scale_factor_nonzero_base (z : zoom_env) (e : scroll_event) :
  is_zero (base_scale z) = false -> exists sf, scale_factor_of z e = Ok sf.
Proof.
  intro Hb. unfold scale_factor_of, py_div. rewrite Hb.
  destruct (String.eqb (ev_button e) "up"); [eauto|].
  destruct (String.eqb (ev_button e) "down"); eauto.
Qed.

Section HandlerFacts.

Variable nonsingular : lim -> lim.

(** An event with data coordinates and a scale factor: the handler sets
    the clamped limits of the x-axis, then those of the y-axis, then
    pushes the view. *)
Lemma zoom_fun_sets (z : zoom_env) (e : scroll_event) (ax : axes)
  (sf xd yd : float) :
  scale_factor_of z e = Ok sf ->
  ev_xdata e = Some xd -> ev_ydata e = Some yd ->
  zoom_fun nonsingular z e ax
  = and_then
      (set_xlim nonsingular
         (clamped (orig_xrange z) (fst (orig_center z))
            (rescaled (xlim ax) xd sf)))
      (and_then
         (set_ylim nonsingular
            (clamped (orig_yrange z) (snd (orig_center z))
               (rescaled (ylim ax) yd sf)))
         (fun ax => (None, push_current ax))) ax.
Proof.
  intros Hsf Hx Hy. unfold zoom_fun. rewrite Hsf, Hx, Hy. simpl.
  unfold clamped, rescaled, limits_to_range. simpl.
  destruct (gtb _ _); destruct (gtb _ _); reflexivity.
Qed.

Lemma sets_ok (lx ly : lim) (ax ax' : axes) :
  and_then (set_xlim nonsingular lx)
    (and_then (set_ylim nonsingular ly) (fun ax => (None, push_current ax))) ax
  = (None, ax') ->
  finite_limits lx = true /\ finite_limits ly = true /\
  xlim ax' = nonsingular lx /\ ylim ax' = nonsingular ly /\
  nav_stack ax' = (xlim ax', ylim ax') :: nav_stack ax.
Proof.
  unfold and_then, set_xlim, set_ylim.
  destruct (finite_limits lx); [|discriminate].
  destruct (finite_limits ly); [|discriminate].
  intro H. inversion H; subst ax'. simpl. auto.
Qed.

Lemma zoom_fun_ok (z : zoom_env) (e : scroll_event) (ax ax' : axes) :
  zoom_fun nonsingular z e ax = (None, ax') ->
  exists sf xd yd,
    scale_factor_of z e = Ok sf /\
    ev_xdata e = Some xd /\ ev_ydata e = Some yd /\
    xlim ax' = nonsingular (clamped (orig_xrange z) (fst (orig_center z))
                              (rescaled (xlim ax) xd sf)) /\
    ylim ax' = nonsingular (clamped (orig_yrange z) (snd (orig_center z))
                              (rescaled (ylim ax) yd sf)) /\
    nav_stack ax' = (xlim ax', ylim ax') :: nav_stack ax.
Proof.
  intro H.
  destruct (scale_factor_of z e) as [sf|x] eqn:Hsf;
    [|unfold zoom_fun in H; rewrite Hsf in H; discriminate].
  destruct (ev_xdata e) as [xd|] eqn:Hx;
    [|unfold zoom_fun in H; rewrite Hsf, Hx in H; discriminate].
  destruct (ev_ydata e) as [yd|] eqn:Hy;
    [|unfold zoom_fun in H; rewrite Hsf, Hx, Hy in H; discriminate].
  rewrite (zoom_fun_sets z e ax sf xd yd Hsf Hx Hy) in H.
  apply sets_ok in H. destruct H as [_ [_ [Ex [Ey Es]]]].
  exists sf, xd, yd. repeat split; assumption || reflexivity.
Qed.

Lemma clamped_outcome (home new : lim) :
  clamp_outcome nonsingular home new
    (nonsingular
       (clamped (limits_to_range home) ((fst home + snd home) / 2) new)).
Proof.
  unfold clamp_outcome, clamped.
  destruct (gtb (abs (limits_to_range new)) (abs (limits_to_range home)));
    [right | left]; split; reflexivity.
Qed.

(** C1, as the code has it: after any run of handled scroll events from
    the view captured at construction, one more handled event leaves each
    axis at the limits computed around the cursor when their range does
    not compare greater than the home range, and otherwise at the home
    centre minus and plus half the range of those limits: the clamp moves
    the axis onto the home centre and keeps the new range, it does not
    cap it. *)
Theorem zoom_recentres_without_cap
  (base : float) (ax0 : axes) (evs : list scroll_event) (e : scroll_event)
  (ax ax' : axes) :
  zoom_events nonsingular (fst (zoom_factory ax0 base)) evs
    (snd (zoom_factory ax0 base)) = (None, ax) ->
  zoom_fun nonsingular (fst (zoom_factory ax0 base)) e ax = (None, ax') ->
  exists sf xd yd,
    scale_factor_of (fst (zoom_factory ax0 base)) e = Ok sf /\
    ev_xdata e = Some xd /\ ev_ydata e = Some yd /\
    clamp_outcome nonsingular (xlim ax0) (rescaled (xlim ax) xd sf)
      (xlim ax') /\
    clamp_outcome nonsingular (ylim ax0) (rescaled (ylim ax) yd sf)
      (ylim ax').
Proof.
  intros _ H. apply zoom_fun_ok in H.
  destruct H as [sf [xd [yd [Hsf [Hx [Hy [Ex [Ey _]]]]]]]].
  exists sf, xd, yd. rewrite Ex, Ey. simpl.
  repeat split; try assumption; apply clamped_outcome.
Qed.

(** C7, as the code has it: a scroll event whose direction is neither
    ['up'] nor ['down'] and which carries data coordinates gets the scale
    factor 1, but it is not skipped: the limits of both axes are computed
    anew around the cursor and clamped like those of any other event, and
    set.  The event raises nothing but the [ValueError] of limits that are
    not finite, and when it raises nothing it pushes the view. *)
Theorem zoom_unknown_direction
  (z : zoom_env) (e : scroll_event) (ax : axes) (xd yd : float) :
  ev_button e <> "up"%string -> ev_button e <> "down"%string ->
  ev_xdata e = Some xd -> ev_ydata e = Some yd ->
  let new_xlim :=
    clamped (orig_xrange z) (fst (orig_center z)) (rescaled (xlim ax) xd 1) in
  let new_ylim :=
    clamped (orig_yrange z) (snd (orig_center z)) (rescaled (ylim ax) yd 1) in
  scale_factor_of z e = Ok 1 /\
  (finite_limits new_xlim && finite_limits new_ylim = true ->
   zoom_fun nonsingular z e ax
   = (None,
      {| xlim := nonsingular new_xlim; ylim := nonsingular new_ylim;
         nav_stack := (nonsingular new_xlim, nonsingular new_ylim)
                      :: nav_stack ax |})) /\
  (finite_limits new_xlim && finite_limits new_ylim = false ->
   fst (zoom_fun nonsingular z e ax) = Some ValueError).
Proof.
  intros Hu Hd Hx Hy new_xlim new_ylim.
  pose proof (scale_factor_other z e Hu Hd) as Hsf.
  split; [exact Hsf|].
  rewrite (zoom_fun_sets z e ax 1 xd yd Hsf Hx Hy).
  fold new_xlim new_ylim.
  unfold and_then, set_xlim, set_ylim. simpl.
  destruct (finite_limits new_xlim); simpl;
    [destruct (finite_limits new_ylim); simpl|];
    split; intro H; try discriminate H; reflexivity.
Qed.

(** A scroll event that carries no data coordinates, as the canvas sends
    when the cursor is outside every axes, is not ignored: whatever its
    direction, the handler raises [TypeError] (for a nonzero
    [base_scale]) and leaves the axes as they are. *)
Theorem zoom_outside_axes_raises
  (z : zoom_env) (e : scroll_event) (ax : axes) :
  is_zero (base_scale z) = false -> ev_xdata e = None ->
  zoom_fun nonsingular z e ax = (Some TypeError, ax).
Proof.
  intros Hb Hx. unfold zoom_fun.
  destruct (scale_factor_nonzero_base z e Hb) as [sf Hsf].
  rewrite Hsf, Hx. reflexivity.
Qed.

(** The toolbar's view stack follows the handler: every handled event
    pushes exactly one entry, and the entry on top is the view the axes
    show. *)
Theorem zoom_pushes_each_view
  (base : float) (ax0 : axes) (evs : list scroll_event) (ax' : axes) :
  zoom_events nonsingular (fst (zoom_factory ax0 base)) evs
    (snd (zoom_factory ax0 base)) = (None, ax') ->
  length (nav_stack ax') = (length evs + 1 + length (nav_stack ax0))%nat /\
  hd_error (nav_stack ax') = Some (xlim ax', ylim ax') /\
  nth_error (nav_stack ax') (length evs) = Some (xlim ax0, ylim ax0).
Proof.
  set (z := fst (zoom_factory ax0 base)).
  assert (G : forall evs ax ax',
             zoom_events nonsingular z evs ax = (None, ax') ->
             hd_error (nav_stack ax) = Some (xlim ax, ylim ax) ->
             length (nav_stack ax')
             = (length evs + length (nav_stack ax))%nat /\
             hd_error (nav_stack ax') = Some (xlim ax', ylim ax') /\
             forall k, nth_error (nav_stack ax') (length evs + k)
                       = nth_error (nav_stack ax) k).
  { clear evs ax'. induction evs as [|e evs IH]; intros ax ax' H Hd; simpl in H.
    - inversion H; subst. auto.
    - unfold and_then in H.
      destruct (zoom_fun nonsingular z e ax) as [[x|] ax1] eqn:H1;
        [discriminate|].
      apply zoom_fun_ok in H1.
      destruct H1 as [sf [xd [yd [_ [_ [_ [_ [_ S1]]]]]]]].
      destruct (IH ax1 ax' H) as [L [T N]].
      + rewrite S1. reflexivity.
      + split; [rewrite L, S1; simpl; lia|]. split; [exact T|].
        intro k.
        change (length (e :: evs) + k)%nat with (S (length evs + k)).
        rewrite <- Nat.add_succ_r, N, S1. reflexivity. }
  intro H. destruct (G evs _ ax' H) as [L [T N]]; [reflexivity|].
  split; [rewrite L; simpl; lia|]. split; [exact T|].
  specialize (N 0%nat). rewrite Nat.add_0_r in N. rewrite N. reflexivity.
Qed.

(** A [base_scale] of zero: a zoom-out raises [ZeroDivisionError] at
    [1/base_scale] and leaves the axes as they are, whether or not the
    event carries data coordinates. *)
Theorem zoom_out_zero_base_scale
  (z : zoom_env) (e : scroll_event) (ax : axes) :
  is_zero (base_scale z) = true -> ev_button e = "down"%string ->
  zoom_fun nonsingular z e ax = (Some ZeroDivisionError, ax).
Proof.
  intros Hb Hd. unfold zoom_fun, scale_factor_of, py_div.
  rewrite Hd, Hb. reflexivity.
Qed.

(** Limits that are not finite are refused by matplotlib, and the handler
    lets the [ValueError] through.  When the x-limits are refused nothing
    has changed; when only the y-limits are refused the x-limits are
    already set, and in neither case is a view pushed. *)
Theorem zoom_refused_limits
  (z : zoom_env) (e : scroll_event) (ax : axes) (sf xd yd : float) :
  scale_factor_of z e = Ok sf ->
  ev_xdata e = Some xd -> ev_ydata e = Some yd ->
  let new_xlim :=
    clamped (orig_xrange z) (fst (orig_center z)) (rescaled (xlim ax) xd sf) in
  let new_ylim :=
    clamped (orig_yrange z) (snd (orig_center z)) (rescaled (ylim ax) yd sf) in
  (finite_limits new_xlim = false ->
   zoom_fun nonsingular z e ax = (Some ValueError, ax)) /\
  (finite_limits new_xlim = true -> finite_limits new_ylim = false ->
   zoom_fun nonsingular z e ax
   = (Some ValueError,
      {| xlim := nonsingular new_xlim; ylim := ylim ax;
         nav_stack := nav_stack ax |})).
Proof.
  intros Hsf Hx Hy new_xlim new_ylim.
  rewrite (zoom_fun_sets z e ax sf xd yd Hsf Hx Hy).
  fold new_xlim new_ylim.
  unfold and_then, set_xlim, set_ylim. simpl.
  split.
  - intro F. rewrite F. reflexivity.
  - intros Fx Fy. rewrite Fx. simpl. rewrite Fy. reflexivity.
Qed.

End HandlerFacts.

Lemma zoom_recentres_without_cap_witness :
  exists ax',
    zoom_fun as_requested (fst (zoom_factory home_view 2)) (wheel "down" 5 5)
      (snd (zoom_factory home_view 2)) = (None, ax') /\
    clamp_outcome as_requested (xlim home_view)
      (rescaled (xlim home_view) 5 (1 / 2)) (xlim ax') /\
    xlim ax' = (-5, 15).
Proof.
  eexists. split; [reflexivity|].
  destruct (zoom_recentres_without_cap as_requested 2 home_view []
              (wheel "down" 5 5) _ _ eq_refl eq_refl)
    as [sf [xd [yd [Hsf [Hx [Hy [Cx _]]]]]]].
  inversion Hsf; subst sf. inversion Hx; subst xd.
  split; [exact Cx | reflexivity].
Defined.

(** C1 fails as stated: from the home view [0..10], one notch of zoom-out
    at the middle with [base_scale = 2] gives the x-limits [-5..15], twice
    as wide as the home range. *)
Lemma zoom_out_exceeds_home :
  exists ax',
    zoom_events as_requested (fst (zoom_factory home_view 2))
      [wheel "down" 5 5] (snd (zoom_factory home_view 2)) = (None, ax') /\
    xlim ax' = (-5, 15) /\
    extent (xlim home_view) = 10 /\ extent (xlim ax') = 20 /\
    (extent (xlim home_view) <? extent (xlim ax')) = true.
Proof.
  eexists. split; [reflexivity|]. repeat split; reflexivity.
Qed.

Lemma zoom_unknown_direction_witness :
  zoom_fun as_requested (fst (zoom_factory home_view 2)) (wheel "left" 5 5)
    home_view
  = (None,
     {| xlim := (0, 10); ylim := (0, 10);
        nav_stack := [((0, 10), (0, 10))] |}).
Proof.
  destruct (zoom_unknown_direction as_requested
              (fst (zoom_factory home_view 2)) (wheel "left" 5 5) home_view
              5 5) as [_ [H _]].
  - discriminate.
  - discriminate.
  - reflexivity.
  - reflexivity.
  - apply H. reflexivity.
Defined.

(** C7 fails as stated.  With the home view [0..10] and the current
    x-limits [0..20], a scroll event of direction ['left'] moves the
    x-limits to [-5..15].  It also moves a view that is no wider than the
    home view: the x-limits [1.1..11.1] have the range 10, the limits
    computed around the cursor at 2.3 have a range just above 10, and the
    event leaves the x-limits at about [0..10]. *)
Lemma zoom_unknown_direction_moves_view :
  (exists ax',
      zoom_fun as_requested (fst (zoom_factory home_view 2))
        (wheel "left" 5 5) panned_view = (None, ax') /\
      xlim panned_view = (0, 20) /\ xlim ax' = (-5, 15)) /\
  (exists ax',
      zoom_fun as_requested (fst (zoom_factory home_view 2))
        (wheel "left" 0x1.2666666666666p+1 5) shifted_view = (None, ax') /\
      limits_to_range (xlim shifted_view) = 10 /\
      extent (rescaled (xlim shifted_view) 0x1.2666666666666p+1 1)
      = 0x1.4000000000001p+3 /\
      xlim ax' = (-0x1p-50, 10)).
Proof.
  split; eexists; (split; [reflexivity|]); repeat split; reflexivity.
Qed.

Lemma zoom_outside_axes_raises_witness :
  zoom_fun as_requested (fst (zoom_factory home_view 2))
    {| ev_button := "up"; ev_xdata := None; ev_ydata := None |} home_view
  = (Some TypeError, home_view).
Proof.
  apply zoom_outside_axes_raises.
  - reflexivity.
  - reflexivity.
Defined.

Lemma zoom_pushes_each_view_witness :
  exists ax',
    zoom_events as_requested (fst (zoom_factory home_view 2))
      [wheel "up" 2 8; wheel "down" 5 5] (snd (zoom_factory home_view 2))
    = (None, ax') /\
    length (nav_stack ax') = 3%nat /\
    nth_error (nav_stack ax') 2 = Some (xlim home_view, ylim home_view).
Proof.
  eexists. split; [reflexivity|].
  destruct (zoom_pushes_each_view as_requested 2 home_view
              [wheel "up" 2 8; wheel "down" 5 5] _ eq_refl) as [L [_ N]].
  split; [exact L | exact N].
Defined.

Lemma zoom_out_zero_base_scale_witness :
  zoom_fun as_requested (fst (zoom_factory home_view 0)) (wheel "down" 5 5)
    home_view
  = (Some ZeroDivisionError, home_view).
Proof.
  apply zoom_out_zero_base_scale; reflexivity.
Defined.

Lemma zoom_refused_limits_witness :
  zoom_fun as_requested (fst (zoom_factory home_view 0)) (wheel "up" 5 5)
    home_view
  = (Some ValueError, home_view) /\
  zoom_fun as_requested (fst (zoom_factory tall_view 2)) (wheel "down" 5 5)
    tall_view
  = (Some ValueError,
     {| xlim := (-5, 15); ylim := ylim tall_view;
        nav_stack := nav_stack tall_view |}).
Proof.
  split.
  - destruct (zoom_refused_limits as_requested
                (fst (zoom_factory home_view 0)) (wheel "up" 5 5) home_view
                0 5 5 eq_refl eq_refl eq_refl) as [H _].
    apply H. reflexivity.
  - destruct (zoom_refused_limits as_requested
                (fst (zoom_factory tall_view 2)) (wheel "down" 5 5) tall_view
                (1 / 2) 5 5 eq_refl eq_refl eq_refl) as [_ H].
    apply H; reflexivity.
Defined.

End ZoomFacts.

(** ** The pan handler *)

Module PanFacts.
Import Pan.

Lemma find_none_filter {A : Type} (f : A -> bool) (l : list A) :
  find f l = None -> filter f l = [].
Proof.
  induction l as [|a l IH]; simpl; [reflexivity|].
  destruct (f a); [discriminate | exact IH].
Qed.

Lemma find_some_filter {A : Type} (f : A -> bool) (l : list A) (e : A) :
  find f l = Some e -> exists rest, filter f l = e :: rest.
Proof.
  induction l as [|a l IH]; simpl; [discriminate|].
  destruct (f a) eqn:E.
  - intro H. inversion H; subst. eexists; reflexivity.
  - exact IH.
Qed.

Lemma drag_listeners_disconnect (n : nat) (c : canvas) :
  drag_listeners (mpl_disconnect (Some n) c)
  = filter (fun k => negb (Nat.eqb k n)) (drag_listeners c).
Proof.
  unfold drag_listeners, mpl_disconnect; simpl.
  induction (callbacks c) as [|a l IH]; simpl; [reflexivity|].
  destruct (negb (Nat.eqb (fst a) n)) eqn:E1;
    destruct (same_slot "motion_notify_event" cb_mouse_move a) eqn:E2;
    simpl; rewrite ?E1, ?E2; simpl; rewrite ?E1; rewrite IH; reflexivity.
Qed.

Lemma drag_listeners_nil_disconnect (d : option nat) (c : canvas) :
  drag_listeners c = [] -> drag_listeners (mpl_disconnect d c) = [].
Proof.
  intro H. destruct d as [n|]; [|exact H].
  rewrite drag_listeners_disconnect, H. reflexivity.
Qed.

Lemma drag_listeners_connect_drag (c : canvas) :
  match drag_listeners c with
  | [] =>
      fst (mpl_connect "motion_notify_event" cb_mouse_move c) = next_cid c /\
      drag_listeners (snd (mpl_connect "motion_notify_event" cb_mouse_move c))
      = [next_cid c]
  | n :: _ =>
      fst (mpl_connect "motion_notify_event" cb_mouse_move c) = n /\
      snd (mpl_connect "motion_notify_event" cb_mouse_move c) = c
  end.
Proof.
  unfold drag_listeners, mpl_connect.
  destruct (find (same_slot "motion_notify_event" cb_mouse_move) (callbacks c))
    as [e|] eqn:F.
  - destruct (find_some_filter _ _ _ F) as [rest R]. rewrite R. simpl. auto.
  - rewrite (find_none_filter _ _ F). simpl. split; [reflexivity|].
    rewrite filter_app, (find_none_filter _ _ F). reflexivity.
Qed.

Lemma drag_listeners_connect_other (s : string) (f : callback) (c : canvas) :
  f <> cb_mouse_move ->
  drag_listeners (snd (mpl_connect s f c)) = drag_listeners c.
Proof.
  intro Hf. unfold mpl_connect.
  destruct (find (same_slot s f) (callbacks c)); [reflexivity|].
  unfold drag_listeners; simpl. rewrite filter_app, map_app. simpl.
  replace (same_slot "motion_notify_event" cb_mouse_move (next_cid c, (s, f)))
    with false.
  - simpl. apply app_nil_r.
  - unfold same_slot; simpl. destruct f; try reflexivity;
      try (rewrite andb_false_r; reflexivity). contradiction.
Qed.

Lemma agree_init (axs : list axes) (c : canvas) (b : Z) :
  no_drag_listener c -> agree (init axs c b).
Proof.
  intro H. unfold agree, init; simpl.
  rewrite !drag_listeners_connect_other by discriminate.
  rewrite H. exact I.
Qed.

Lemma cancel_action_agree (h : panhandler) :
  agree h -> agree (_cancel_action h).
Proof.
  unfold agree, _cancel_action. simpl.
  destruct (truthy (_id_drag h)) eqn:T; simpl.
  - destruct (_id_drag h) as [n|]; [|discriminate].
    rewrite drag_listeners_disconnect.
    destruct (drag_listeners (fig_canvas h)) as [|k [|k' l]]; simpl; auto.
    + intros [E _]. inversion E; subst. rewrite Nat.eqb_refl. exact I.
    + intros [].
  - destruct (drag_listeners (fig_canvas h)) as [|k [|k' l]]; simpl; auto.
    intros [E _]. split; [exact E | discriminate].
Qed.

Lemma press_axes_agree (event : mouse_event) (i : nat) (a : axes)
  (h : panhandler) :
  agree h -> _xypress h <> None ->
  exists h', press_axes event i a h = Ok h' /\ agree h' /\ _xypress h' <> None.
Proof.
  intros Ha Hx. unfold press_axes.
  destruct (ev_x event) as [x|]; [|eauto].
  destruct (ev_y event) as [y|]; [|eauto].
  destruct (in_axes a event && get_navigate a && can_pan a); [|eauto].
  unfold get_xypress; simpl.
  destruct (_xypress h) as [l|] eqn:X; [|contradiction]. simpl.
  pose proof (drag_listeners_connect_drag (fig_canvas h)) as C.
  unfold agree in Ha.
  destruct (mpl_connect "motion_notify_event" cb_mouse_move (fig_canvas h))
    as [cid c'] eqn:M.
  simpl in C. eexists. split; [reflexivity|].
  split; [|discriminate]. unfold agree; simpl.
  destruct (drag_listeners (fig_canvas h)) as [|k [|k' r]] eqn:D.
  - destruct C as [C1 C2]. rewrite C2. subst cid.
    split; [reflexivity | discriminate].
  - destruct C as [C1 C2]. subst c' cid. rewrite D.
    split; [reflexivity | discriminate].
  - contradiction.
Qed.

Lemma press_loop_agree (event : mouse_event) (axs : list axes) (i : nat)
  (h : panhandler) :
  agree h -> _xypress h <> None ->
  exists h', press_loop event i axs h = Ok h' /\ agree h' /\ _xypress h' <> None.
Proof.
  revert i h. induction axs as [|a axs IH]; intros i h Ha Hx; simpl.
  - eauto.
  - destruct (press_axes_agree event i a h Ha Hx) as [h1 [E [Ha1 Hx1]]].
    rewrite E. simpl. apply IH; assumption.
Qed.

Lemma with_xypress_agree (l : list nat) (h : panhandler) :
  agree h -> agree (with_xypress l h).
Proof.
  unfold agree; simpl.
  destruct (drag_listeners (fig_canvas h)) as [|k [|k' r]]; auto.
  intros [E _]. split; [exact E | discriminate].
Qed.

Lemma press_agree (event : mouse_event) (h : panhandler) :
  agree h -> exists h', press event h = Ok h' /\ agree h'.
Proof.
  intro Ha. unfold press.
  destruct (negb (Z.eqb (ev_button event) (button h))).
  - eexists. split; [reflexivity|]. apply cancel_action_agree, Ha.
  - destruct (press_loop_agree event (fig_axes (with_xypress [] h)) 0
                (with_xypress [] h)) as [h' [E [Ha' _]]].
    + apply with_xypress_agree, Ha.
    + discriminate.
    + exists h'. split; assumption.
Qed.

Lemma fold_record_call_fields (f : nat -> call) (l : list nat)
  (h : panhandler) :
  fig_canvas (fold_left (fun h i => record_call (f i) h) l h) = fig_canvas h /\
  _id_drag (fold_left (fun h i => record_call (f i) h) l h) = _id_drag h /\
  _xypress (fold_left (fun h i => record_call (f i) h) l h) = _xypress h.
Proof.
  revert h. induction l as [|i l IH]; intro h; simpl; [auto|].
  destruct (IH (record_call (f i) h)) as [A [B C]].
  rewrite A, B, C. auto.
Qed.

Lemma mouse_move_agree (event : mouse_event) (h : panhandler) :
  agree h -> _xypress h <> None ->
  exists h', _mouse_move event h = Ok h' /\ agree h'.
Proof.
  intros Ha Hx. unfold _mouse_move, get_xypress.
  destruct (_xypress h) as [l|] eqn:X; [|contradiction]. simpl.
  eexists. split; [reflexivity|]. unfold agree; simpl.
  destruct (fold_record_call_fields
              (fun i => drag_pan i 1 (ev_key event) (ev_x event) (ev_y event))
              l h) as [A [B C]].
  rewrite A, B, C. unfold agree in Ha.
  destruct (drag_listeners (fig_canvas h)) as [|k [|k' r]]; auto.
Qed.

Lemma cancel_action_fixed (h : panhandler) :
  _xypress h = Some [] -> truthy (_id_drag h) = false -> _cancel_action h = h.
Proof.
  intros X T. unfold _cancel_action. simpl. rewrite T.
  destruct h; simpl in *. subst. reflexivity.
Qed.

(** What [release] leaves behind. *)
Lemma release_agree (event : mouse_event) (h : panhandler) :
  agree h ->
  exists h',
    release event h = Ok h' /\
    drag_listeners (fig_canvas h') = [] /\
    _xypress h' = Some [] /\
    truthy (_id_drag h') = false.
Proof.
  intro Ha. unfold release.
  set (h1 := _cancel_action h).
  assert (X1 : _xypress h1 = Some []).
  { unfold h1, _cancel_action. simpl.
    destruct (truthy (_id_drag h)); reflexivity. }
  assert (T1 : truthy (_id_drag h1) = false).
  { unfold h1, _cancel_action. simpl.
    destruct (truthy (_id_drag h)) eqn:T; simpl; [reflexivity | exact T]. }
  assert (D2 : drag_listeners (mpl_disconnect (_id_drag h1) (fig_canvas h1)) = []).
  { pose proof (cancel_action_agree h Ha) as Ha1. fold h1 in Ha1.
    unfold agree in Ha1.
    destruct (drag_listeners (fig_canvas h1)) as [|k [|k' r]] eqn:D.
    - apply drag_listeners_nil_disconnect, D.
    - destruct Ha1 as [E _]. rewrite E, drag_listeners_disconnect, D.
      simpl. rewrite Nat.eqb_refl. reflexivity.
    - contradiction. }
  unfold get_xypress. simpl. rewrite X1. simpl.
  set (h2 := with_canvas (mpl_disconnect (_id_drag h1) (fig_canvas h1)) h1).
  assert (C2 : _cancel_action h2 = h2).
  { apply cancel_action_fixed; [exact X1 | exact T1]. }
  exists h2. rewrite C2. split; [rewrite X1; reflexivity|].
  repeat split; assumption.
Qed.

Lemma dispatch_agree (g : gui_event) (h : panhandler) :
  agree h -> exists h', dispatch g h = Ok h' /\ agree h'.
Proof.
  intro Ha. destruct g as [e|e|e]; simpl.
  - destruct (connected "button_press_event" cb_press (fig_canvas h));
      [apply press_agree, Ha | eauto].
  - destruct (connected "motion_notify_event" cb_mouse_move (fig_canvas h))
      eqn:C; [|eauto].
    apply mouse_move_agree; [exact Ha|].
    unfold agree in Ha. unfold connected in C.
    destruct (drag_listeners (fig_canvas h)) as [|k [|k' r]] eqn:D.
    + exfalso. unfold drag_listeners in D.
      apply existsb_exists in C. destruct C as [x [Hin Hx]].
      assert (In x (filter (same_slot "motion_notify_event" cb_mouse_move)
                      (callbacks (fig_canvas h)))) as F
        by (apply filter_In; auto).
      destruct (filter (same_slot "motion_notify_event" cb_mouse_move)
                  (callbacks (fig_canvas h))); [inversion F | discriminate].
    + apply Ha.
    + contradiction.
  - destruct (connected "button_release_event" cb_release (fig_canvas h));
      [|eauto].
    destruct (release_agree e h Ha) as [h' [E [D [X T]]]].
    exists h'. split; [exact E|]. unfold agree. rewrite D. exact I.
Qed.

Lemma run_agree (gs : list gui_event) (h : panhandler) :
  agree h -> exists h', run gs h = Ok h' /\ agree h'.
Proof.
  revert h. induction gs as [|g gs IH]; intros h Ha; simpl; [eauto|].
  destruct (dispatch_agree g h Ha) as [h1 [E Ha1]].
  rewrite E. simpl. apply IH, Ha1.
Qed.

(** C4: on a canvas that did not hold the handler's motion callback before
    the handler was made, whatever events were delivered since
    construction (with any axes under the cursor at a press, none or
    several), handling a button release returns normally and leaves the
    canvas without any registration of the motion callback; it leaves no
    axes recorded, and cancelling once more changes nothing. *)
Theorem release_leaves_no_drag_listener
  (axs : list axes) (c : canvas) (b : Z) (gs : list gui_event)
  (e : mouse_event) :
  no_drag_listener c ->
  exists h h',
    run gs (init axs c b) = Ok h /\
    release e h = Ok h' /\
    drag_listeners (fig_canvas h') = [] /\
    _xypress h' = Some [] /\
    _cancel_action h' = h'.
Proof.
  intro Hc.
  destruct (run_agree gs (init axs c b) (agree_init axs c b Hc)) as [h [E Ha]].
  destruct (release_agree e h Ha) as [h' [R [D [X T]]]].
  exists h, h'. repeat split; try assumption.
  apply cancel_action_fixed; assumption.
Qed.

Lemma release_leaves_no_drag_listener_witness :
  no_drag_listener fresh_canvas /\
  exists h h',
    run [Press (mouse 3); Motion (mouse 3)] (init [panel; panel] fresh_canvas 3)
      = Ok h /\
    release (mouse 3) h = Ok h' /\
    drag_listeners (fig_canvas h') = [] /\
    _xypress h' = Some [] /\
    _cancel_action h' = h'.
Proof.
  split; [reflexivity|].
  apply (release_leaves_no_drag_listener [panel; panel] fresh_canvas 3
           [Press (mouse 3); Motion (mouse 3)] (mouse 3)).
  reflexivity.
Defined.

(** The gesture of the witness, step by step: after the press over two
    axes the canvas holds the motion callback once, under id 2, and both
    axes are recorded; the release removes it. *)
Example press_over_two_panels :
  match run [Press (mouse 3)] (init [panel; panel] fresh_canvas 3) with
  | Ok h =>
      drag_listeners (fig_canvas h) = [2%nat] /\
      _id_drag h = Some 2%nat /\ _xypress h = Some [0%nat; 1%nat]
  | Raise _ => False
  end.
Proof.
  vm_compute. auto.
Qed.

(** *** Further properties of the pan handler *)

Lemma fold_record_call_calls (f : nat -> call) (l : list nat)
  (h : panhandler) :
  calls (fold_left (fun h i => record_call (f i) h) l h)
  = calls h ++ map f l.
Proof.
  revert h. induction l as [|i l IH]; intro h; simpl.
  - symmetry. apply app_nil_r.
  - rewrite IH. simpl. rewrite <- app_assoc. reflexivity.
Qed.

Lemma cancel_action_fields (h : panhandler) :
  calls (_cancel_action h) = calls h /\
  _xypress (_cancel_action h) = Some [] /\
  fig_axes (_cancel_action h) = fig_axes h /\
  button (_cancel_action h) = button h.
Proof.
  unfold _cancel_action. simpl. destruct (truthy (_id_drag h)); simpl; auto.
Qed.

Lemma release_calls (e : mouse_event) (h h' : panhandler) :
  release e h = Ok h' -> calls h' = calls h.
Proof.
  unfold release. intro H.
  destruct (cancel_action_fields h) as [C [X _]].
  unfold get_xypress in H. simpl in H. rewrite X in H. simpl in H.
  assert (E : h' = _cancel_action
                     (with_canvas
                        (mpl_disconnect (_id_drag (_cancel_action h))
                           (fig_canvas (_cancel_action h)))
                        (_cancel_action h))).
  { rewrite X in H. simpl in H. inversion H. reflexivity. }
  rewrite E. destruct (cancel_action_fields
                         (with_canvas
                            (mpl_disconnect (_id_drag (_cancel_action h))
                               (fig_canvas (_cancel_action h)))
                            (_cancel_action h))) as [C' _].
  rewrite C'. simpl. exact C.
Qed.

Lemma press_loop_records (event : mouse_event) (x y : Z) (axs : list axes) :
  ev_x event = Some x -> ev_y event = Some y ->
  forall (i : nat) (h : panhandler) (l : list nat),
    _xypress h = Some l ->
    exists h',
      press_loop event i axs h = Ok h' /\
      _xypress h' = Some (l ++ hit_from event i axs) /\
      calls h'
      = calls h
        ++ map (fun k => start_pan k x y (ev_button event))
             (hit_from event i axs) /\
      (hit_from event i axs = [] ->
       fig_canvas h' = fig_canvas h /\ _id_drag h' = _id_drag h).
Proof.
  intros Hx Hy. induction axs as [|a axs IH]; intros i h l Hl; simpl.
  - exists h. rewrite !app_nil_r. auto.
  - unfold press_axes. rewrite Hx, Hy. fold (pannable event a).
    destruct (pannable event a) eqn:P.
    + unfold get_xypress. simpl. rewrite Hl. simpl.
      destruct (mpl_connect "motion_notify_event" cb_mouse_move (fig_canvas h))
        as [cid c'] eqn:M. simpl.
      destruct (IH (S i)
                  (with_id_drag (Some cid)
                     (with_canvas c'
                        (with_xypress (l ++ [i])
                           (record_call (start_pan i x y (ev_button event)) h))))
                  (l ++ [i]) eq_refl) as [h' [E [X [C _]]]].
      exists h'. split; [exact E|]. split.
      * rewrite X, <- app_assoc. reflexivity.
      * split; [|discriminate].
        rewrite C. simpl. rewrite <- app_assoc. reflexivity.
    + simpl. apply IH. exact Hl.
Qed.

(** A press of the pan button records the axes under the cursor that can
    be panned, in figure order, and calls [start_pan] on each of them with
    the pixel position of the press; over no such axes it records nothing
    and leaves the canvas and [_id_drag] as they were. *)
Theorem press_records_hit_axes
  (e : mouse_event) (h : panhandler) (x y : Z) :
  ev_button e = button h -> ev_x e = Some x -> ev_y e = Some y ->
  exists h',
    press e h = Ok h' /\
    _xypress h' = Some (hit_from e 0 (fig_axes h)) /\
    calls h'
    = calls h
      ++ map (fun k => start_pan k x y (ev_button e))
           (hit_from e 0 (fig_axes h)) /\
    (hit_from e 0 (fig_axes h) = [] ->
     fig_canvas h' = fig_canvas h /\ _id_drag h' = _id_drag h).
Proof.
  intros Hb Hx Hy. unfold press.
  assert (B : Z.eqb (ev_button e) (button h) = true) by (apply Z.eqb_eq, Hb).
  rewrite B. simpl.
  destruct (press_loop_records e x y (fig_axes h) Hx Hy 0%nat
              (with_xypress [] h) [] eq_refl) as [h' [E K]].
  exists h'. split; [exact E | exact K].
Qed.

Lemma press_records_hit_axes_witness :
  exists h',
    press (mouse 3) (init [panel; panel] fresh_canvas 3) = Ok h' /\
    _xypress h' = Some [0%nat; 1%nat] /\
    calls h' = [start_pan 0 10 10 3; start_pan 1 10 10 3].
Proof.
  destruct (press_records_hit_axes (mouse 3)
              (init [panel; panel] fresh_canvas 3) 10 10
              eq_refl eq_refl eq_refl) as [h' [E [X [C _]]]].
  exists h'. split; [exact E|]. split; [exact X | exact C].
Defined.

(** A motion event during a gesture calls [drag_pan] once on each recorded
    axes, in order and always with button 1, then asks for one redraw; it
    changes neither the canvas nor what the handler recorded. *)
Theorem mouse_move_drags_recorded_axes
  (e : mouse_event) (h : panhandler) (l : list nat) :
  _xypress h = Some l ->
  exists h',
    _mouse_move e h = Ok h' /\
    calls h'
    = calls h
      ++ map (fun i => drag_pan i 1 (ev_key e) (ev_x e) (ev_y e)) l
      ++ [draw_idle] /\
    fig_canvas h' = fig_canvas h /\
    _id_drag h' = _id_drag h /\ _xypress h' = Some l.
Proof.
  intro Hl. unfold _mouse_move, get_xypress. rewrite Hl. simpl.
  eexists. split; [reflexivity|]. simpl.
  rewrite fold_record_call_calls.
  destruct (fold_record_call_fields
              (fun i => drag_pan i 1 (ev_key e) (ev_x e) (ev_y e)) l h)
    as [A [B C]].
  rewrite A, B, C, <- app_assoc. auto.
Qed.

Lemma mouse_move_drags_recorded_axes_witness :
  exists h',
    _mouse_move (mouse 3)
      (with_xypress [0%nat; 1%nat] (init [panel; panel] fresh_canvas 3))
    = Ok h' /\
    calls h'
    = [drag_pan 0 1 None (Some 10) (Some 10);
       drag_pan 1 1 None (Some 10) (Some 10); draw_idle].
Proof.
  destruct (mouse_move_drags_recorded_axes (mouse 3)
              (with_xypress [0%nat; 1%nat] (init [panel; panel] fresh_canvas 3))
              [0%nat; 1%nat] eq_refl) as [h' [E [C _]]].
  exists h'. split; [exact E | exact C].
Defined.

Lemma press_calls_no_end_pan (e : mouse_event) (h h' : panhandler) :
  press e h = Ok h' ->
  (forall i, ~ In (end_pan i) (calls h)) ->
  forall i, ~ In (end_pan i) (calls h').
Proof.
  unfold press.
  destruct (negb (Z.eqb (ev_button e) (button h))).
  - intros H Hn. inversion H; subst.
    destruct (cancel_action_fields h) as [C _]. rewrite C. exact Hn.
  - intros H Hn.
    assert (G : forall axs i h h',
               press_loop e i axs h = Ok h' ->
               (forall k, ~ In (end_pan k) (calls h)) ->
               forall k, ~ In (end_pan k) (calls h')).
    { clear. induction axs as [|a axs IH]; intros i h h' H Hn; simpl in H.
      - inversion H; subst. exact Hn.
      - destruct (press_axes e i a h) as [h1|] eqn:P; [|discriminate].
        simpl in H. apply (IH _ _ _ H).
        unfold press_axes in P.
        destruct (ev_x e); [|inversion P; subst; exact Hn].
        destruct (ev_y e); [|inversion P; subst; exact Hn].
        destruct (in_axes a e && get_navigate a && can_pan a);
          [|inversion P; subst; exact Hn].
        unfold get_xypress in P. simpl in P.
        destruct (_xypress h); [|discriminate]. simpl in P.
        destruct (mpl_connect "motion_notify_event" cb_mouse_move (fig_canvas h)).
        inversion P; subst. simpl. intros k Hin.
        apply in_app_or in Hin. destruct Hin as [Hin|[Hin|[]]].
        + apply (Hn k Hin).
        + discriminate Hin. }
    apply (G _ _ _ _ H). exact Hn.
Qed.

Lemma dispatch_no_end_pan (g : gui_event) (h h' : panhandler) :
  dispatch g h = Ok h' ->
  (forall i, ~ In (end_pan i) (calls h)) ->
  forall i, ~ In (end_pan i) (calls h').
Proof.
  destruct g as [e|e|e]; simpl.
  - destruct (connected "button_press_event" cb_press (fig_canvas h)).
    + apply press_calls_no_end_pan.
    + intros H Hn. inversion H; subst. exact Hn.
  - destruct (connected "motion_notify_event" cb_mouse_move (fig_canvas h)).
    + intros H Hn. unfold _mouse_move, get_xypress in H.
      destruct (_xypress h) as [l|]; [|discriminate]. simpl in H.
      inversion H; subst. simpl. rewrite fold_record_call_calls.
      intros i Hin. apply in_app_or in Hin. destruct Hin as [Hin|[Hin|[]]].
      * apply in_app_or in Hin. destruct Hin as [Hin|Hin].
        -- apply (Hn i Hin).
        -- apply in_map_iff in Hin. destruct Hin as [k [Hk _]]. discriminate Hk.
      * discriminate Hin.
    + intros H Hn. inversion H; subst. exact Hn.
  - destruct (connected "button_release_event" cb_release (fig_canvas h)).
    + intros H Hn. rewrite (release_calls e h h' H). exact Hn.
    + intros H Hn. inversion H; subst. exact Hn.
Qed.

(** No axes is ever told that its pan has ended: [release] empties
    [_xypress] before it walks it, so in the calls made since
    construction, whatever the events were, [end_pan] does not occur even
    though [start_pan] does. *)
Theorem end_pan_is_never_called
  (axs : list axes) (c : canvas) (b : Z) (gs : list gui_event)
  (h : panhandler) :
  run gs (init axs c b) = Ok h ->
  forall i, ~ In (end_pan i) (calls h).
Proof.
  assert (G : forall gs h0 h,
             run gs h0 = Ok h ->
             (forall i, ~ In (end_pan i) (calls h0)) ->
             forall i, ~ In (end_pan i) (calls h)).
  { clear. induction gs as [|g gs IH]; intros h0 h H Hn; simpl in H.
    - inversion H; subst. exact Hn.
    - destruct (dispatch g h0) as [h1|] eqn:D; [|discriminate].
      simpl in H. apply (IH _ _ H).
      apply (dispatch_no_end_pan g h0 h1 D Hn). }
  intro H. apply (G gs _ h H). intros i [].
Qed.

Lemma end_pan_is_never_called_witness :
  exists h,
    run [Press (mouse 3); Motion (mouse 3); Release (mouse 3)]
      (init [panel; panel] fresh_canvas 3) = Ok h /\
    In (start_pan 0 10 10 3) (calls h) /\
    ~ In (end_pan 0) (calls h).
Proof.
  assert (R : exists h,
             run [Press (mouse 3); Motion (mouse 3); Release (mouse 3)]
               (init [panel; panel] fresh_canvas 3) = Ok h /\
             In (start_pan 0 10 10 3) (calls h)).
  { vm_compute. eexists. split; [reflexivity|]. left. reflexivity. }
  destruct R as [h [R S]]. exists h. split; [exact R|]. split; [exact S|].
  apply (end_pan_is_never_called _ _ _ _ h R).
Defined.

Lemma existsb_false_find {A : Type} (f : A -> bool) (l : list A) :
  existsb f l = false -> find f l = None.
Proof.
  induction l as [|a l IH]; simpl; [reflexivity|].
  destruct (f a); simpl; [discriminate | exact IH].
Qed.

Lemma connect_next_nonzero (s : string) (f : callback) (c : canvas) :
  next_cid c <> 0%nat -> next_cid (snd (mpl_connect s f c)) <> 0%nat.
Proof.
  intro H. unfold mpl_connect.
  destruct (find (same_slot s f) (callbacks c)); simpl; [exact H | discriminate].
Qed.

Lemma connect_drag_nonzero (c : canvas) :
  next_cid c <> 0%nat -> ~ In 0%nat (drag_listeners c) ->
  next_cid (snd (mpl_connect "motion_notify_event" cb_mouse_move c)) <> 0%nat /\
  ~ In 0%nat
      (drag_listeners (snd (mpl_connect "motion_notify_event" cb_mouse_move c))).
Proof.
  intros Hn Hd. split; [apply connect_next_nonzero, Hn|].
  pose proof (drag_listeners_connect_drag c) as C.
  destruct (drag_listeners c) as [|n r] eqn:D.
  - destruct C as [_ C]. rewrite C. intros [E|[]]. apply Hn. exact E.
  - destruct C as [_ C]. rewrite C, D. exact Hd.
Qed.

Lemma disconnect_nonzero (d : option nat) (c : canvas) :
  next_cid c <> 0%nat -> ~ In 0%nat (drag_listeners c) ->
  next_cid (mpl_disconnect d c) <> 0%nat /\
  ~ In 0%nat (drag_listeners (mpl_disconnect d c)).
Proof.
  intros Hn Hd. destruct d as [n|]; [|auto]. split; [exact Hn|].
  rewrite drag_listeners_disconnect. intro H.
  apply filter_In in H. apply Hd, H.
Qed.

Lemma cancel_action_nonzero (h : panhandler) :
  nonzero_ids h -> nonzero_ids (_cancel_action h).
Proof.
  intros [Hn Hd]. unfold nonzero_ids, _cancel_action. simpl.
  destruct (truthy (_id_drag h)); simpl; [|auto].
  apply disconnect_nonzero; assumption.
Qed.

Lemma press_keeps (e : mouse_event) (h h' : panhandler) :
  press e h = Ok h' -> nonzero_ids h ->
  nonzero_ids h' /\ button h' = button h.
Proof.
  unfold press.
  destruct (negb (Z.eqb (ev_button e) (button h))).
  - intros H K. inversion H; subst. split.
    + apply cancel_action_nonzero, K.
    + apply cancel_action_fields.
  - assert (G : forall axs i h h',
               press_loop e i axs h = Ok h' -> nonzero_ids h ->
               nonzero_ids h' /\ button h' = button h).
    { clear. induction axs as [|a axs IH]; intros i h h' H K; simpl in H.
      - inversion H; subst. auto.
      - destruct (press_axes e i a h) as [h1|] eqn:P; [|discriminate].
        simpl in H.
        assert (K1 : nonzero_ids h1 /\ button h1 = button h).
        { unfold press_axes in P.
          destruct (ev_x e); [|inversion P; subst; auto].
          destruct (ev_y e); [|inversion P; subst; auto].
          destruct (in_axes a e && get_navigate a && can_pan a);
            [|inversion P; subst; auto].
          unfold get_xypress in P. simpl in P.
          destruct (_xypress h); [|discriminate]. simpl in P.
          destruct K as [Hn Hd].
          pose proof (connect_drag_nonzero (fig_canvas h) Hn Hd) as C.
          destruct (mpl_connect "motion_notify_event" cb_mouse_move
                      (fig_canvas h)) as [cid c'].
          inversion P; subst. simpl in C. split; [exact C | reflexivity]. }
        destruct K1 as [K1 B1].
        destruct (IH _ _ _ H K1) as [K' B']. split; [exact K' | congruence]. }
    intros H K. apply (G _ _ _ _ H). exact K.
Qed.

Lemma release_keeps (e : mouse_event) (h h' : panhandler) :
  release e h = Ok h' -> nonzero_ids h ->
  nonzero_ids h' /\ button h' = button h.
Proof.
  unfold release. intros H K.
  destruct (cancel_action_fields h) as [_ [X [_ B]]].
  unfold get_xypress in H. simpl in H. rewrite X in H. simpl in H.
  rewrite X in H. simpl in H. inversion H; subst. split.
  - apply cancel_action_nonzero.
    pose proof (cancel_action_nonzero h K) as [Hn Hd].
    unfold nonzero_ids. simpl. apply disconnect_nonzero; assumption.
  - destruct (cancel_action_fields
                (with_canvas
                   (mpl_disconnect (_id_drag (_cancel_action h))
                      (fig_canvas (_cancel_action h)))
                   (_cancel_action h))) as [_ [_ [_ B']]].
    rewrite B'. simpl. exact B.
Qed.

Lemma dispatch_keeps (g : gui_event) (h h' : panhandler) :
  dispatch g h = Ok h' -> nonzero_ids h ->
  nonzero_ids h' /\ button h' = button h.
Proof.
  destruct g as [e|e|e]; simpl.
  - destruct (connected "button_press_event" cb_press (fig_canvas h)).
    + apply press_keeps.
    + intros H K. inversion H; subst. auto.
  - destruct (connected "motion_notify_event" cb_mouse_move (fig_canvas h)).
    + intros H K. unfold _mouse_move, get_xypress in H.
      destruct (_xypress h) as [l|]; [|discriminate]. simpl in H.
      inversion H; subst. unfold nonzero_ids. simpl.
      destruct (fold_record_call_fields
                  (fun i => drag_pan i 1 (ev_key e) (ev_x e) (ev_y e)) l h)
        as [A _].
      rewrite A. split; [exact K|].
      clear. induction l as [|i l IH] using rev_ind; [reflexivity|].
      rewrite fold_left_app. simpl. exact IH.
    + intros H K. inversion H; subst. auto.
  - destruct (connected "button_release_event" cb_release (fig_canvas h)).
    + apply release_keeps.
    + intros H K. inversion H; subst. auto.
Qed.

Lemma run_keeps (gs : list gui_event) (h h' : panhandler) :
  run gs h = Ok h' -> nonzero_ids h ->
  nonzero_ids h' /\ button h' = button h.
Proof.
  revert h. induction gs as [|g gs IH]; intros h H K; simpl in H.
  - inversion H; subst. auto.
  - destruct (dispatch g h) as [h1|] eqn:D; [|discriminate]. simpl in H.
    destruct (dispatch_keeps g h h1 D K) as [K1 B1].
    destruct (IH h1 H K1) as [K' B']. split; [exact K' | congruence].
Qed.

Lemma init_nonzero (axs : list axes) (c : canvas) (b : Z) :
  no_drag_listener c ->
  connected "button_press_event" cb_press c = false ->
  nonzero_ids (init axs c b).
Proof.
  intros Hd Hp. unfold nonzero_ids, init. simpl. split.
  - apply connect_next_nonzero. unfold mpl_connect.
    unfold connected in Hp. rewrite (existsb_false_find _ _ Hp). simpl.
    discriminate.
  - rewrite !drag_listeners_connect_other by discriminate.
    rewrite Hd. intros [].
Qed.

(** A press of any button other than the pan button ends a gesture in
    progress: on a canvas that held neither the handler's press callback
    nor its motion callback before the handler was made, whatever events
    came before, such a press removes the motion callback from the canvas,
    drops the recorded axes and resets [_id_drag]. *)
Theorem other_button_ends_gesture
  (axs : list axes) (c : canvas) (b : Z) (gs : list gui_event)
  (e : mouse_event) :
  no_drag_listener c ->
  connected "button_press_event" cb_press c = false ->
  ev_button e <> b ->
  exists h h',
    run gs (init axs c b) = Ok h /\
    press e h = Ok h' /\
    drag_listeners (fig_canvas h') = [] /\
    _xypress h' = Some [] /\
    truthy (_id_drag h') = false.
Proof.
  intros Hd Hp Hb.
  destruct (run_agree gs (init axs c b) (agree_init axs c b Hd)) as [h [R Ha]].
  destruct (run_keeps gs _ h R (init_nonzero axs c b Hd Hp)) as [[Hn Hz] B].
  simpl in B.
  exists h, (_cancel_action h). split; [exact R|]. split.
  - unfold press. rewrite B.
    assert (E : Z.eqb (ev_button e) b = false) by (apply Z.eqb_neq, Hb).
    rewrite E. reflexivity.
  - split; [|split; [apply cancel_action_fields|]].
    + unfold agree in Ha. unfold _cancel_action. simpl.
      destruct (drag_listeners (fig_canvas h)) as [|n [|n' r]] eqn:D.
      * destruct (truthy (_id_drag h)); simpl; [|exact D].
        apply drag_listeners_nil_disconnect, D.
      * destruct Ha as [Ha _]. rewrite Ha.
        destruct n as [|n]; [exfalso; apply Hz; left; reflexivity|].
        change (truthy (Some (S n))) with true. cbn iota. simpl fig_canvas.
        pose proof (drag_listeners_disconnect (S n) (fig_canvas h)) as Q.
        unfold mpl_disconnect in Q. rewrite Q, D. simpl.
        rewrite Nat.eqb_refl. reflexivity.
      * contradiction.
    + unfold _cancel_action. simpl.
      destruct (truthy (_id_drag h)) eqn:T; simpl; [reflexivity | exact T].
Qed.

Lemma other_button_ends_gesture_witness :
  exists h h',
    run [Press (mouse 3); Motion (mouse 3)] (init [panel; panel] fresh_canvas 3)
      = Ok h /\
    press (mouse 1) h = Ok h' /\
    drag_listeners (fig_canvas h') = [] /\
    _xypress h' = Some [] /\
    truthy (_id_drag h') = false.
Proof.
  apply (other_button_ends_gesture [panel; panel] fresh_canvas 3
           [Press (mouse 3); Motion (mouse 3)] (mouse 1)).
  - reflexivity.
  - reflexivity.
  - discriminate.
Defined.

Lemma press_loop_figure (event : mouse_event) (axs : list axes) :
  forall (i : nat) (h h' : panhandler),
    press_loop event i axs h = Ok h' ->
    fig_axes h' = fig_axes h /\ button h' = button h.
Proof.
  induction axs as [|a axs IH]; intros i h h' H; simpl in H.
  - inversion H; subst. auto.
  - destruct (press_axes event i a h) as [h1|] eqn:P; [|discriminate].
    simpl in H. destruct (IH _ _ _ H) as [A B]. rewrite A, B.
    unfold press_axes in P.
    destruct (ev_x event); [|inversion P; subst; auto].
    destruct (ev_y event); [|inversion P; subst; auto].
    destruct (in_axes a event && get_navigate a && can_pan a);
      [|inversion P; subst; auto].
    unfold get_xypress in P. simpl in P.
    destruct (_xypress h); [|discriminate]. simpl in P.
    destruct (mpl_connect "motion_notify_event" cb_mouse_move (fig_canvas h)).
    inversion P; subst. auto.
Qed.

Lemma dispatch_keeps_figure (g : gui_event) (h h' : panhandler) :
  dispatch g h = Ok h' ->
  fig_axes h' = fig_axes h /\ button h' = button h.
Proof.
  destruct g as [e|e|e]; simpl.
  - destruct (connected "button_press_event" cb_press (fig_canvas h)).
    + unfold press.
      destruct (negb (Z.eqb (ev_button e) (button h))).
      * intro H. inversion H; subst.
        destruct (cancel_action_fields h) as [_ [_ [A B]]]. auto.
      * intro H. apply press_loop_figure in H. exact H.
    + intro H. inversion H; subst. auto.
  - destruct (connected "motion_notify_event" cb_mouse_move (fig_canvas h)).
    + intro H. unfold _mouse_move, get_xypress in H.
      destruct (_xypress h) as [l|]; [|discriminate]. simpl in H.
      inversion H; subst. simpl.
      clear. induction l as [|i l IH] using rev_ind; [auto|].
      rewrite fold_left_app. simpl. exact IH.
    + intro H. inversion H; subst. auto.
  - destruct (connected "button_release_event" cb_release (fig_canvas h)).
    + unfold release. intro H.
      destruct (cancel_action_fields h) as [_ [X [A B]]].
      unfold get_xypress in H. simpl in H. rewrite X in H. simpl in H.
      rewrite X in H. simpl in H. inversion H; subst.
      destruct (cancel_action_fields
                  (with_canvas
                     (mpl_disconnect (_id_drag (_cancel_action h))
                        (fig_canvas (_cancel_action h)))
                     (_cancel_action h))) as [_ [_ [A' B']]].
      rewrite A', B'. simpl. auto.
    + intro H. inversion H; subst. auto.
Qed.

Lemma run_keeps_figure (gs : list gui_event) (h h' : panhandler) :
  run gs h = Ok h' -> fig_axes h' = fig_axes h /\ button h' = button h.
Proof.
  revert h. induction gs as [|g gs IH]; intros h H; simpl in H.
  - inversion H; subst. auto.
  - destruct (dispatch g h) as [h1|] eqn:D; [|discriminate]. simpl in H.
    destruct (dispatch_keeps_figure g h h1 D) as [A B].
    destruct (IH h1 H) as [A' B']. split; congruence.
Qed.

Lemma connect_drag_listed (c : canvas) :
  drag_listeners (snd (mpl_connect "motion_notify_event" cb_mouse_move c))
  <> [].
Proof.
  pose proof (drag_listeners_connect_drag c) as C.
  destruct (drag_listeners c) as [|n r] eqn:D.
  - destruct C as [_ C]. rewrite C. discriminate.
  - destruct C as [_ C]. rewrite C, D. discriminate.
Qed.

Lemma press_loop_listed (event : mouse_event) (axs : list axes) :
  forall (i : nat) (h h' : panhandler),
    press_loop event i axs h = Ok h' ->
    drag_listeners (fig_canvas h) <> [] ->
    drag_listeners (fig_canvas h') <> [].
Proof.
  induction axs as [|a axs IH]; intros i h h' H Hl; simpl in H.
  - inversion H; subst. exact Hl.
  - destruct (press_axes event i a h) as [h1|] eqn:P; [|discriminate].
    simpl in H. apply (IH _ _ _ H).
    unfold press_axes in P.
    destruct (ev_x event); [|inversion P; subst; exact Hl].
    destruct (ev_y event); [|inversion P; subst; exact Hl].
    destruct (in_axes a event && get_navigate a && can_pan a);
      [|inversion P; subst; exact Hl].
    unfold get_xypress in P. simpl in P.
    destruct (_xypress h); [|discriminate]. simpl in P.
    pose proof (connect_drag_listed (fig_canvas h)) as C.
    destruct (mpl_connect "motion_notify_event" cb_mouse_move (fig_canvas h)).
    inversion P; subst. exact C.
Qed.

Lemma press_loop_arms (event : mouse_event) (x y : Z) (axs : list axes) :
  ev_x event = Some x -> ev_y event = Some y ->
  forall (i : nat) (h h' : panhandler),
    press_loop event i axs h = Ok h' ->
    hit_from event i axs <> [] ->
    drag_listeners (fig_canvas h') <> [].
Proof.
  intros Hx Hy. induction axs as [|a axs IH]; intros i h h' H Hh; simpl in *.
  - contradiction.
  - destruct (press_axes event i a h) as [h1|] eqn:P; [|discriminate].
    simpl in H. unfold press_axes in P. rewrite Hx, Hy in P.
    fold (pannable event a) in P.
    destruct (pannable event a).
    + apply (press_loop_listed event axs _ _ _ H).
      unfold get_xypress in P. simpl in P.
      destruct (_xypress h); [|discriminate]. simpl in P.
      pose proof (connect_drag_listed (fig_canvas h)) as C.
      destruct (mpl_connect "motion_notify_event" cb_mouse_move (fig_canvas h)).
      inversion P; subst. exact C.
    + inversion P; subst. apply (IH _ _ _ H Hh).
Qed.

(** A press of the pan button over at least one axes that can be panned
    arms the drag: after any events since construction, on a canvas that
    did not hold the motion callback before, the canvas then holds
    [_mouse_move] exactly once, under the id kept in [_id_drag], however
    many axes were hit. *)
Theorem pan_press_arms_one_listener
  (axs : list axes) (c : canvas) (b : Z) (gs : list gui_event)
  (e : mouse_event) (x y : Z) :
  no_drag_listener c ->
  ev_button e = b -> ev_x e = Some x -> ev_y e = Some y ->
  hit_from e 0 axs <> [] ->
  exists h h' n,
    run gs (init axs c b) = Ok h /\
    press e h = Ok h' /\
    drag_listeners (fig_canvas h') = [n] /\ _id_drag h' = Some n.
Proof.
  intros Hc Hb Hx Hy Hh.
  destruct (run_agree gs (init axs c b) (agree_init axs c b Hc)) as [h [R Ha]].
  destruct (run_keeps_figure gs _ h R) as [Hax Hbt]. simpl in Hax, Hbt.
  destruct (press_agree e h Ha) as [h' [P Ha']].
  assert (L : drag_listeners (fig_canvas h') <> []).
  { unfold press in P. rewrite Hbt, Hb, Z.eqb_refl in P. simpl in P.
    apply (press_loop_arms e x y _ Hx Hy _ _ _ P). rewrite Hax. exact Hh. }
  unfold agree in Ha'.
  destruct (drag_listeners (fig_canvas h')) as [|n [|n' r]] eqn:D.
  - contradiction.
  - exists h, h', n. destruct Ha' as [Hid _]. auto.
  - contradiction.
Qed.

Lemma pan_press_arms_one_listener_witness :
  exists h h' n,
    run [Press (mouse 3); Release (mouse 3)] (init [panel; panel] fresh_canvas 3)
      = Ok h /\
    press (mouse 3) h = Ok h' /\
    drag_listeners (fig_canvas h') = [n] /\ _id_drag h' = Some n.
Proof.
  apply (pan_press_arms_one_listener [panel; panel] fresh_canvas 3
           [Press (mouse 3); Release (mouse 3)] (mouse 3) 10 10).
  - reflexivity.
  - reflexivity.
  - reflexivity.
  - reflexivity.
  - discriminate.
Defined.

End PanFacts.

(** ** The lasso segmenter *)

Module SegmenterFacts.
Import Segmenter.
Open Scope Z_scope.

Lemma shape_eqb_refl (sh : nat * nat) : shape_eqb sh sh = true.
Proof.
  unfold shape_eqb. rewrite !Nat.eqb_refl. reflexivity.
Qed.

Lemma shape_eqb_eq (a b : nat * nat) : shape_eqb a b = true -> a = b.
Proof.
  unfold shape_eqb. destruct a, b; simpl. intro H.
  apply andb_true_iff in H. destruct H as [H1 H2].
  apply Nat.eqb_eq in H1. apply Nat.eqb_eq in H2. congruence.
Qed.

Lemma where_set_length {A : Type} (idx : list bool) (v : A) (l : list A) :
  length (where_set idx v l) = length l.
Proof.
  revert l. induction idx as [|b idx IH]; intros [|x l]; simpl; auto.
Qed.

Lemma where_set_nth {A : Type} (idx : list bool) (v : A) (l : list A)
  (p : nat) (b : bool) (x : A) :
  nth_error idx p = Some b -> nth_error l p = Some x ->
  nth_error (where_set idx v l) p = Some (if b then v else x).
Proof.
  revert l p. induction idx as [|b0 idx IH]; intros [|x0 l] [|p]; simpl;
    try discriminate.
  - intros H1 H2. inversion H1; inversion H2; subst. reflexivity.
  - apply IH.
Qed.

Lemma where_set_twice {A : Type} (idx : list bool) (v w : A) (l : list A) :
  where_set idx v (where_set idx w l) = where_set idx v l.
Proof.
  revert l. induction idx as [|b idx IH]; intros [|x l]; simpl; auto.
  rewrite IH. destruct b; reflexivity.
Qed.

Lemma where_set_same {A : Type} (idx : list bool) (v : A) (l : list A) :
  (forall p, nth_error idx p = Some true -> nth_error l p = Some v) ->
  where_set idx v l = l.
Proof.
  revert l. induction idx as [|b idx IH]; intros [|x l] H; simpl; auto.
  f_equal.
  - destruct b; [|reflexivity].
    specialize (H 0%nat eq_refl). simpl in H. congruence.
  - apply IH. intros p Hp. exact (H (S p) Hp).
Qed.

Lemma where_set_Forall2 {A B : Type} (P : A -> B -> Prop) (idx : list bool)
  (v : A) (w : B) (l : list A) (k : list B) :
  P v w -> Forall2 P l k -> Forall2 P (where_set idx v l) (where_set idx w k).
Proof.
  intros Hvw H. revert idx. induction H as [|x y l k Hxy H IH]; intro idx.
  - destruct idx; constructor.
  - destruct idx as [|b idx]; simpl.
    + constructor; assumption.
    + constructor; [destruct b; assumption | apply IH].
Qed.

Lemma py_index_in_range {A : Type} (l : list A) (i : Z) (d : A) :
  0 <= i < Z.of_nat (length l) -> py_index l i = Ok (nth (Z.to_nat i) l d).
Proof.
  intro H. unfold py_index. cbv zeta.
  assert (E1 : (i <? 0) = false) by (apply Z.ltb_ge; lia).
  assert (E2 : (Z.of_nat (length l) <=? i) = false) by (apply Z.leb_gt; lia).
  rewrite !E1, E2. simpl.
  destruct (nth_error l (Z.to_nat i)) as [x|] eqn:N.
  - f_equal. symmetry. apply nth_error_nth. exact N.
  - apply nth_error_None in N. lia.
Qed.

Lemma py_index_negative {A : Type} (l : list A) (i : Z) (d : A) :
  - Z.of_nat (length l) <= i < 0 ->
  py_index l i = Ok (nth (Z.to_nat (i + Z.of_nat (length l))) l d).
Proof.
  intro H. unfold py_index. cbv zeta.
  assert (E1 : (i <? 0) = true) by (apply Z.ltb_lt; lia).
  assert (E2 : (i + Z.of_nat (length l) <? 0) = false)
    by (apply Z.ltb_ge; lia).
  assert (E3 : (Z.of_nat (length l) <=? i + Z.of_nat (length l)) = false)
    by (apply Z.leb_gt; lia).
  rewrite E1, E2, E3. simpl.
  destruct (nth_error l (Z.to_nat (i + Z.of_nat (length l)))) as [x|] eqn:N.
  - f_equal. symmetry. apply nth_error_nth. exact N.
  - apply nth_error_None in N. lia.
Qed.

Lemma py_index_out_of_range {A : Type} (l : list A) (i : Z) :
  i < - Z.of_nat (length l) \/ Z.of_nat (length l) <= i ->
  py_index l i = Raise IndexError.
Proof.
  intro H. unfold py_index. cbv zeta.
  destruct (i <? 0) eqn:E1.
  - apply Z.ltb_lt in E1.
    assert (E2 : (i + Z.of_nat (length l) <? 0) = true)
      by (apply Z.ltb_lt; lia).
    rewrite E2. reflexivity.
  - apply Z.ltb_ge in E1.
    assert (E2 : (i <? 0) = false) by (apply Z.ltb_ge; lia).
    assert (E3 : (Z.of_nat (length l) <=? i) = true) by (apply Z.leb_le; lia).
    rewrite E2, E3. reflexivity.
Qed.

Lemma loop_pixel_notin (colors : list rgba) (ks : list Z) (m : Q) (o : rgba) :
  (forall i, In i ks -> ~ (m == inject_Z i)%Q) -> loop_pixel colors ks m o = o.
Proof.
  revert o. induction ks as [|k ks IH]; intros o H; simpl; [reflexivity|].
  destruct (Qeq_bool m (inject_Z k)) eqn:E.
  - apply Qeq_bool_iff in E. exfalso. apply (H k); [left; reflexivity | exact E].
  - apply IH. intros i Hi. apply H. right. exact Hi.
Qed.

Lemma inject_Z_eq (i j : Z) : (inject_Z i == inject_Z j)%Q -> i = j.
Proof.
  unfold Qeq, inject_Z. simpl. lia.
Qed.

Lemma loop_pixel_in (colors : list rgba) (ks : list Z) (m : Q) (o : rgba)
  (i : Z) :
  NoDup ks -> In i ks -> (m == inject_Z i)%Q ->
  loop_pixel colors ks m o = class_color colors i.
Proof.
  revert o. induction ks as [|k ks IH]; intros o Hnd Hin Hm; simpl.
  - contradiction.
  - inversion Hnd as [|k' ks' Hk Hnd']; subst.
    destruct Hin as [Hki|Hin].
    + subst k. apply Qeq_bool_iff in Hm. rewrite Hm.
      apply loop_pixel_notin. intros j Hj Hmj.
      apply Qeq_bool_iff in Hm. rewrite Hm in Hmj.
      apply inject_Z_eq in Hmj. subst j. contradiction.
    + apply IH; assumption.
Qed.

Lemma py_range_In (n i : Z) : In i (py_range n) <-> 0 <= i < n.
Proof.
  unfold py_range. rewrite in_map_iff. split.
  - intros [k [Hk Hin]]. apply in_seq in Hin. lia.
  - intro H. exists (Z.to_nat i). split; [lia|]. apply in_seq. lia.
Qed.

Lemma py_range_NoDup (n : Z) : NoDup (py_range n).
Proof.
  unfold py_range. apply Injective_map_NoDup.
  - intros a b H. lia.
  - apply seq_NoDup.
Qed.

Lemma init_overlay_step_ok (colors : list rgba) (m : ndarray Q)
  (o : ndarray rgba) (i : Z) :
  shape o = shape m -> 0 <= i <= Z.of_nat (length colors) ->
  init_overlay_step colors m o i
  = Ok (painted (map (fun x => Qeq_bool x (inject_Z i)) (data m))
          (class_color colors i) o).
Proof.
  intros Hsh Hi. unfold init_overlay_step, class_color.
  destruct (i =? 0) eqn:E.
  - unfold assign_where. simpl. rewrite <- Hsh, shape_eqb_refl. reflexivity.
  - apply Z.eqb_neq in E.
    rewrite (py_index_in_range colors (i - 1) transparent) by lia. simpl.
    unfold assign_where. simpl. rewrite <- Hsh, shape_eqb_refl. reflexivity.
Qed.

Lemma init_overlay_loop_ok (colors : list rgba) (m : ndarray Q) (ks : list Z) :
  (forall i, In i ks -> 0 <= i <= Z.of_nat (length colors)) ->
  forall o : ndarray rgba,
    shape o = shape m ->
    exists o',
      init_overlay_loop colors m o ks = Ok o' /\
      shape o' = shape o /\
      length (data o') = length (data o) /\
      forall (p : nat) (mv : Q) (ov : rgba),
        nth_error (data m) p = Some mv -> nth_error (data o) p = Some ov ->
        nth_error (data o') p = Some (loop_pixel colors ks mv ov).
Proof.
  induction ks as [|k ks IH]; intros Hks o Hsh; simpl.
  - exists o. auto.
  - rewrite init_overlay_step_ok; [|exact Hsh | apply Hks; left; reflexivity].
    simpl.
    destruct (IH (fun i Hi => Hks i (or_intror Hi))
                (painted (map (fun x => Qeq_bool x (inject_Z k)) (data m))
                   (class_color colors k) o) Hsh)
      as [o' [E [Hs [Hl Hp]]]].
    exists o'. split; [exact E|]. split; [exact Hs|]. split.
    + rewrite Hl. unfold painted. simpl. apply where_set_length.
    + intros p mv ov Nm No. apply Hp; [exact Nm|].
      unfold painted. simpl.
      rewrite (where_set_nth _ _ _ p (Qeq_bool mv (inject_Z k)) ov).
      * reflexivity.
      * rewrite nth_error_map, Nm. reflexivity.
      * exact No.
Qed.

Lemma init_colors_alpha (pal : palettes) (ncls : Z)
  (colors : option (list rgba)) (a : Q) :
  Forall (fun c => alpha c = a) (init_colors pal ncls colors a).
Proof.
  unfold init_colors. apply Forall_map. apply Forall_forall. reflexivity.
Qed.

(** With the default palette and at most ten classes the table has one
    row per class. *)
Lemma init_colors_length (pal : palettes) (ncls : Z) (a : Q) :
  length (TABLEAU_COLORS pal) = 10%nat -> 0 <= ncls <= 10 ->
  Z.of_nat (length (init_colors pal ncls None a)) = ncls.
Proof.
  intros Hpal Hn. unfold init_colors, py_take.
  assert (E1 : (ncls <=? 10) = true) by (apply Z.leb_le; lia).
  assert (E2 : (ncls <? 0) = false) by (apply Z.ltb_ge; lia).
  rewrite E1, E2, length_map, length_firstn, Hpal. lia.
Qed.

Lemma Forall2_of_nth {A B : Type} (P : A -> B -> Prop) (l : list A)
  (k : list B) :
  length l = length k ->
  (forall p x y, nth_error l p = Some x -> nth_error k p = Some y -> P x y) ->
  Forall2 P l k.
Proof.
  revert k. induction l as [|x l IH]; intros [|y k] Hl H;
    try discriminate; constructor.
  - apply (H 0%nat); reflexivity.
  - apply IH; [simpl in Hl; lia|].
    intros p x' y' Hx Hy. apply (H (S p)); assumption.
Qed.

(** What matplotlib answers for the square lasso on the 10 by 10 grid:
    the pixels of the square without those of its row [y = 2]. *)
Lemma square_lasso_selection :
  path_contains_points square_lasso (make_pix (10%nat, 10%nat))
  = Ok (map above_first_row (make_pix (10%nat, 10%nat))).
Proof. vm_compute. reflexivity. Qed.

Section LassoFacts.

Variable contains_points : list vertex -> list (Z * Z) -> result (list bool).

Lemma onselect_erase (vs : list vertex) (s : image_segmenter)
  (flat : list bool) :
  lasso_fits contains_points vs s flat -> erasing s = true ->
  exists s',
    _onselect contains_points vs s = (None, s') /\
    mask s' = painted flat 0%Q (mask s) /\
    _overlay s' = painted flat transparent (_overlay s) /\
    same_config s s'.
Proof.
  intros [Hcp [Hlen Hsh]] He. unfold _onselect. simpl. rewrite Hcp. simpl.
  unfold reshape. rewrite Hlen, Nat.eqb_refl. simpl. rewrite He.
  unfold and_then, set_mask_where, set_overlay_where, assign_where. simpl.
  rewrite shape_eqb_refl. simpl. rewrite Hsh, shape_eqb_refl. simpl.
  eexists. split; [reflexivity|]. simpl. unfold painted, same_config. simpl.
  rewrite Hsh. repeat split; auto.
Qed.

Lemma onselect_paint (vs : list vertex) (s : image_segmenter)
  (flat : list bool) (col : rgba) :
  lasso_fits contains_points vs s flat -> erasing s = false ->
  py_index (mask_colors s) (current_class s - 1) = Ok col ->
  exists s',
    _onselect contains_points vs s = (None, s') /\
    mask s' = painted flat (inject_Z (current_class s)) (mask s) /\
    _overlay s' = painted flat col (_overlay s) /\
    same_config s s'.
Proof.
  intros [Hcp [Hlen Hsh]] He Hcol. unfold _onselect. simpl. rewrite Hcp. simpl.
  unfold reshape. rewrite Hlen, Nat.eqb_refl. simpl. rewrite He.
  unfold and_then, set_mask_where, set_overlay_where, assign_where. simpl.
  rewrite shape_eqb_refl. simpl. rewrite Hcol. simpl.
  rewrite Hsh, shape_eqb_refl. simpl.
  eexists. split; [reflexivity|]. simpl. unfold painted, same_config. simpl.
  rewrite Hsh. repeat split; auto.
Qed.

(** A paint whose colour lookup raises: the mask has been written, the
    overlay has not. *)
Lemma onselect_paint_raises (vs : list vertex) (s : image_segmenter)
  (flat : list bool) (e : exn) :
  lasso_fits contains_points vs s flat -> erasing s = false ->
  py_index (mask_colors s) (current_class s - 1) = Raise e ->
  exists s',
    _onselect contains_points vs s = (Some e, s') /\
    mask s' = painted flat (inject_Z (current_class s)) (mask s) /\
    _overlay s' = _overlay s.
Proof.
  intros [Hcp [Hlen Hsh]] He Hcol. unfold _onselect. simpl. rewrite Hcp. simpl.
  unfold reshape. rewrite Hlen, Nat.eqb_refl. simpl. rewrite He.
  unfold and_then, set_mask_where, set_overlay_where, assign_where. simpl.
  rewrite shape_eqb_refl. simpl. rewrite Hcol. simpl.
  eexists. split; [reflexivity|]. simpl. unfold painted. auto.
Qed.

Lemma where_set_none {A : Type} (n : nat) (v : A) (l : list A) :
  where_set (repeat false n) v l = l.
Proof.
  revert l. induction n as [|n IH]; intros [|x l]; simpl; auto.
  rewrite IH. reflexivity.
Qed.

(** A lasso for which the rasterizer marks no pixel writes nothing into
    mask or overlay, whether it erases or paints, and whether or not the
    paint raises. *)
Lemma empty_selection_changes_nothing
  (vs : list vertex) (s : image_segmenter) :
  contains_points vs (pix s) = Ok (repeat false (length (pix s))) ->
  mask (snd (_onselect contains_points vs s)) = mask s /\
  _overlay (snd (_onselect contains_points vs s)) = _overlay s.
Proof.
  intro Hcp. unfold _onselect. simpl. rewrite Hcp. simpl.
  unfold reshape.
  destruct (Nat.eqb _ _); simpl; [|auto].
  destruct (erasing s);
    unfold and_then, set_mask_where, set_overlay_where, assign_where; simpl;
    rewrite shape_eqb_refl; simpl.
  - destruct (shape_eqb (shape (mask s)) (shape (_overlay s)));
        [|destruct (index_fits (shape (mask s)) (shape (_overlay s)))]; simpl;
      rewrite ?where_set_none; destruct (mask s), (_overlay s); auto.
  - destruct (py_index (mask_colors s) (current_class s - 1)); simpl;
      [destruct (shape_eqb (shape (mask s)) (shape (_overlay s)));
        [|destruct (index_fits (shape (mask s)) (shape (_overlay s)))]; simpl|];
      rewrite ?where_set_none; destruct (mask s), (_overlay s); auto.
Qed.

(** C9: a lasso completed while erasing gives the same outcome, the same
    mask and the same overlay whatever [current_class] holds. *)
Theorem erase_ignores_current_class
  (vs : list vertex) (s : image_segmenter) (c1 c2 : Z) :
  let r1 :=
    _onselect contains_points vs (with_current_class c1 (with_erasing true s)) in
  let r2 :=
    _onselect contains_points vs (with_current_class c2 (with_erasing true s)) in
  fst r1 = fst r2 /\
  mask (snd r1) = mask (snd r2) /\
  _overlay (snd r1) = _overlay (snd r2).
Proof.
  unfold _onselect. simpl.
  destruct (contains_points vs (pix s)) as [flat|e]; simpl; [|auto].
  unfold reshape.
  destruct (Nat.eqb (length flat) (size (shape (mask s)))); simpl; [|auto].
  unfold and_then, set_mask_where, set_overlay_where, assign_where. simpl.
  rewrite shape_eqb_refl. simpl.
  destruct (shape_eqb (shape (mask s)) (shape (_overlay s)));
        [|destruct (index_fits (shape (mask s)) (shape (_overlay s)))]; simpl; auto.
Qed.

(** C5, as the code has it: a paint with a class id that the colour table
    holds writes the class id and its colour at the pixels of the
    membership mask and leaves mask and overlay of every other pixel as
    they were; on a blank 10 by 10 mask with class 1, when the membership
    mask is the one matplotlib computes for the square lasso
    [(2,2), (7,2), (7,7), (2,7)], the pixels with [2 <= x <= 7] and
    [3 <= y <= 7] get mask value 1 and all others, those of the row
    [y = 2] among them, keep 0. *)
Theorem paint_changes_selected_only
  (vs : list vertex) (s : image_segmenter) (flat : list bool) :
  lasso_fits contains_points vs s flat -> erasing s = false ->
  1 <= current_class s <= Z.of_nat (length (mask_colors s)) ->
  exists s',
    _onselect contains_points vs s = (None, s') /\
    (forall (p : nat) (m : Q) (o : rgba),
        nth_error (data (mask s)) p = Some m ->
        nth_error (data (_overlay s)) p = Some o ->
        (nth_error flat p = Some true ->
         nth_error (data (mask s')) p = Some (inject_Z (current_class s)) /\
         nth_error (data (_overlay s')) p
         = Some (class_color (mask_colors s) (current_class s))) /\
        (nth_error flat p = Some false ->
         nth_error (data (mask s')) p = Some m /\
         nth_error (data (_overlay s')) p = Some o)) /\
    (data (mask s) = repeat 0%Q 100 -> current_class s = 1 ->
     path_contains_points square_lasso (make_pix (10%nat, 10%nat)) = Ok flat ->
     forall x y : nat, (x < 10)%nat -> (y < 10)%nat ->
       at_xy 10 (data (mask s')) x y
       = Some (if above_first_row (Z.of_nat x, Z.of_nat y)
               then 1%Q else 0%Q)).
Proof.
  intros Hfit He Hc.
  assert (Hcol : py_index (mask_colors s) (current_class s - 1)
                 = Ok (class_color (mask_colors s) (current_class s))).
  { unfold class_color.
    destruct (current_class s =? 0) eqn:E; [apply Z.eqb_eq in E; lia|].
    apply py_index_in_range. lia. }
  destruct (onselect_paint vs s flat _ Hfit He Hcol) as [s' [E [Hm [Ho _]]]].
  exists s'. split; [exact E|]. rewrite Hm, Ho. unfold painted. simpl. split.
  - intros p m o Nm No. split; intro Nf.
    + rewrite (where_set_nth flat _ _ p true m Nf Nm).
      rewrite (where_set_nth flat _ _ p true o Nf No). auto.
    + rewrite (where_set_nth flat _ _ p false m Nf Nm).
      rewrite (where_set_nth flat _ _ p false o Nf No). auto.
  - intros Hd Hone Hflat x y Hx Hy.
    rewrite square_lasso_selection in Hflat. inversion Hflat as [Hf].
    rewrite Hd, Hone. unfold at_xy.
    do 10 (destruct x as [|x];
           [do 10 (destruct y as [|y]; [reflexivity|]); lia|]).
    lia.
Qed.

(** C6, as the code has it: with a colour table of [nclasses] rows, a paint
    raises [IndexError] when the class id is above [nclasses] or at most
    [-nclasses], and it raises after the mask has been written; for every
    other class id it returns normally and writes the class id into the
    mask: with the colour of that class for an id of [1..nclasses], and,
    for an id [c] of [1-nclasses..0], which Python's negative index
    accepts, with the colour found that far from the end of the table, the
    one of class [c + nclasses]. *)
Theorem paint_raises_outside_index_range
  (vs : list vertex) (s : image_segmenter) (flat : list bool) :
  lasso_fits contains_points vs s flat -> erasing s = false ->
  Z.of_nat (length (mask_colors s)) = nclasses s ->
  (current_class s <= - nclasses s \/ nclasses s < current_class s ->
   fst (_onselect contains_points vs s) = Some IndexError /\
   mask (snd (_onselect contains_points vs s))
   = painted flat (inject_Z (current_class s)) (mask s) /\
   _overlay (snd (_onselect contains_points vs s)) = _overlay s) /\
  (- nclasses s < current_class s <= nclasses s ->
   fst (_onselect contains_points vs s) = None /\
   mask (snd (_onselect contains_points vs s))
   = painted flat (inject_Z (current_class s)) (mask s) /\
   (1 <= current_class s ->
    _overlay (snd (_onselect contains_points vs s))
    = painted flat (class_color (mask_colors s) (current_class s))
        (_overlay s)) /\
   (current_class s <= 0 ->
    _overlay (snd (_onselect contains_points vs s))
    = painted flat
        (class_color (mask_colors s) (current_class s + nclasses s))
        (_overlay s))).
Proof.
  intros Hfit He Hn. split; intro Hc.
  - assert (Hcol : py_index (mask_colors s) (current_class s - 1)
                   = Raise IndexError)
      by (apply py_index_out_of_range; lia).
    destruct (onselect_paint_raises vs s flat _ Hfit He Hcol)
      as [s' [E [Hm Ho]]].
    rewrite E. simpl. auto.
  - destruct (Z_lt_le_dec (current_class s - 1) 0) as [Hneg|Hpos].
    + assert (Hcol := py_index_negative (mask_colors s) (current_class s - 1)
                        transparent).
      destruct (onselect_paint vs s flat _ Hfit He (Hcol ltac:(lia)))
        as [s' [E [Hm [Ho _]]]].
      rewrite E. simpl. split; [reflexivity|]. split; [exact Hm|].
      split; intro Hs; [lia|].
      rewrite Ho. unfold class_color.
      assert (E0 : (current_class s + nclasses s =? 0) = false)
        by (apply Z.eqb_neq; lia).
      rewrite E0. do 3 f_equal. lia.
    + assert (Hcol := py_index_in_range (mask_colors s) (current_class s - 1)
                        transparent).
      destruct (onselect_paint vs s flat _ Hfit He (Hcol ltac:(lia)))
        as [s' [E [Hm [Ho _]]]].
      rewrite E. simpl. split; [reflexivity|]. split; [exact Hm|].
      split; intro Hs; [|lia].
      rewrite Ho. unfold class_color.
      assert (E0 : (current_class s =? 0) = false) by (apply Z.eqb_neq; lia).
      rewrite E0. reflexivity.
Qed.

(** C3, as the code has it: a paint with a class id that the colour table
    holds, followed by an erase with the same membership mask, leaves the
    pixels of the membership mask unlabelled and transparent and all other
    pixels as they were; mask and overlay are those from before the paint
    when every pixel of the membership mask was unlabelled and transparent
    then. *)
Theorem paint_then_erase
  (vs : list vertex) (s : image_segmenter) (flat : list bool) :
  lasso_fits contains_points vs s flat ->
  1 <= current_class s <= Z.of_nat (length (mask_colors s)) ->
  exists s1 s2,
    _onselect contains_points vs (with_erasing false s) = (None, s1) /\
    _onselect contains_points vs (with_erasing true s1) = (None, s2) /\
    mask s2 = painted flat 0%Q (mask s) /\
    _overlay s2 = painted flat transparent (_overlay s) /\
    ((forall p : nat,
         nth_error flat p = Some true ->
         nth_error (data (mask s)) p = Some 0%Q /\
         nth_error (data (_overlay s)) p = Some transparent) ->
     mask s2 = mask s /\ _overlay s2 = _overlay s).
Proof.
  intros Hfit Hc.
  assert (Hcol : py_index (mask_colors s) (current_class s - 1)
                 = Ok (class_color (mask_colors s) (current_class s))).
  { unfold class_color.
    destruct (current_class s =? 0) eqn:E; [apply Z.eqb_eq in E; lia|].
    apply py_index_in_range. lia. }
  destruct (onselect_paint vs (with_erasing false s) flat _ Hfit eq_refl Hcol)
    as [s1 [E1 [Hm1 [Ho1 Hcfg]]]].
  simpl in Hm1, Ho1.
  assert (Hfit1 : lasso_fits contains_points vs (with_erasing true s1) flat).
  { destruct Hfit as [Hcp [Hlen Hsh]].
    destruct Hcfg as [_ [_ [_ [_ [Hpix _]]]]]. simpl in Hpix.
    unfold lasso_fits. simpl. rewrite Hpix, Hm1, Ho1. simpl. auto. }
  destruct (onselect_erase vs (with_erasing true s1) flat Hfit1 eq_refl)
    as [s2 [E2 [Hm2 [Ho2 _]]]].
  simpl in Hm2, Ho2.
  exists s1, s2. split; [exact E1|]. split; [exact E2|].
  assert (M : mask s2 = painted flat 0%Q (mask s)).
  { rewrite Hm2, Hm1. unfold painted. simpl. rewrite where_set_twice.
    reflexivity. }
  assert (O : _overlay s2 = painted flat transparent (_overlay s)).
  { rewrite Ho2, Ho1. unfold painted. simpl. rewrite where_set_twice.
    reflexivity. }
  split; [exact M|]. split; [exact O|].
  intro H. rewrite M, O. unfold painted.
  rewrite !where_set_same by (intros p Hp; apply (H p Hp)).
  destruct (mask s), (_overlay s). auto.
Qed.

End LassoFacts.

(** What [__init__] leaves in the overlay, pixel by pixel. *)
Lemma init_pixels (pal : palettes) (sh : nat * nat) (ncls : Z)
  (seed : option (ndarray Q)) (colors : option (list rgba)) (a : Q) :
  shape (seeded sh seed) = sh ->
  length (data (seeded sh seed)) = size sh ->
  ncls <= Z.of_nat (length (init_colors pal ncls colors a)) ->
  exists s,
    init pal sh ncls seed colors a = Ok s /\
    mask s = seeded sh seed /\
    mask_colors s = init_colors pal ncls colors a /\
    mask_alpha s = a /\
    shape (_overlay s) = sh /\
    length (data (_overlay s)) = size sh /\
    forall (p : nat) (m : Q),
      nth_error (data (seeded sh seed)) p = Some m ->
      (forall i, 0 <= i <= ncls -> (m == inject_Z i)%Q ->
         nth_error (data (_overlay s)) p
         = Some (class_color (init_colors pal ncls colors a) i)) /\
      (~ in_label_range ncls m ->
         nth_error (data (_overlay s)) p = Some transparent).
Proof.
  intros Hsh Hlen Hn. unfold init.
  destruct (init_overlay_loop_ok (init_colors pal ncls colors a)
              (seeded sh seed) (py_range (ncls + 1))) with
    (o := full sh transparent) as [o' [E [Hs [Hl Hp]]]].
  - intros i Hi. apply py_range_In in Hi. lia.
  - simpl. symmetry. exact Hsh.
  - rewrite E. simpl. eexists. split; [reflexivity|]. simpl.
    simpl in Hs, Hl. rewrite repeat_length in Hl.
    repeat (split; [assumption || reflexivity|]).
    intros p m Nm.
    assert (No : nth_error (data (full sh transparent)) p = Some transparent).
    { simpl. apply nth_error_repeat. rewrite <- Hlen.
      apply nth_error_Some. congruence. }
    rewrite (Hp p m transparent Nm No). split.
    + intros i Hi Hm. f_equal.
      apply loop_pixel_in; [apply py_range_NoDup | | exact Hm].
      apply py_range_In. lia.
    + intro Hout. f_equal. apply loop_pixel_notin.
      intros i Hi Hm. apply Hout. exists i. split; [|exact Hm].
      apply py_range_In in Hi. lia.
Qed.

(** C10: when the seed mask has the shape of the image and the colour
    table has a row for every class, construction succeeds and keeps the
    seed as the mask; a pixel whose seed value is one of the integers
    [0..nclasses] gets the overlay entry of that label, and a pixel whose
    seed value is anything else gets the transparent entry, whatever its
    value. *)
Theorem seed_outside_range_is_transparent
  (pal : palettes) (sh : nat * nat) (ncls : Z) (seed : ndarray Q)
  (colors : option (list rgba)) (a : Q) :
  shape seed = sh -> length (data seed) = size sh ->
  ncls <= Z.of_nat (length (init_colors pal ncls colors a)) ->
  exists s,
    init pal sh ncls (Some seed) colors a = Ok s /\
    mask s = seed /\
    forall (p : nat) (m : Q),
      nth_error (data seed) p = Some m ->
      (forall i, 0 <= i <= ncls -> (m == inject_Z i)%Q ->
         nth_error (data (_overlay s)) p
         = Some (class_color (mask_colors s) i)) /\
      (~ in_label_range ncls m ->
         nth_error (data (_overlay s)) p = Some transparent).
Proof.
  intros Hsh Hlen Hn.
  destruct (init_pixels pal sh ncls (Some seed) colors a Hsh Hlen Hn)
    as [s [E [Hm [Hc [_ [_ [_ Hp]]]]]]].
  exists s. split; [exact E|]. split; [exact Hm|]. rewrite Hc. exact Hp.
Qed.

Lemma class_color_agrees (cols : list rgba) (a : Q) (c : Z) :
  ~ (a == 0)%Q -> Forall (fun x => alpha x = a) cols ->
  1 <= c <= Z.of_nat (length cols) ->
  pixel_agrees cols a (inject_Z c) (class_color cols c).
Proof.
  intros Ha Hall Hc. unfold pixel_agrees, class_color.
  assert (E : (c =? 0) = false) by (apply Z.eqb_neq; lia). rewrite E.
  assert (N : nth_error cols (Z.to_nat (c - 1))
              = Some (nth (Z.to_nat (c - 1)) cols transparent))
    by (apply nth_error_nth'; lia).
  assert (A : alpha (nth (Z.to_nat (c - 1)) cols transparent) = a).
  { rewrite Forall_forall in Hall. apply Hall.
    apply nth_error_In with (n := Z.to_nat (c - 1)). exact N. }
  split.
  - intro H. change 0%Q with (inject_Z 0) in H. apply inject_Z_eq in H. lia.
  - intros _. split; [rewrite A; exact Ha|].
    exists c. repeat split; try assumption; try reflexivity; lia.
Qed.

Lemma blank_agrees (cols : list rgba) (a : Q) :
  pixel_agrees cols a 0%Q transparent.
Proof.
  unfold pixel_agrees. split; [reflexivity|].
  intro H. exfalso. apply H. reflexivity.
Qed.

Lemma pixel_agrees_compat (cols : list rgba) (a m m' : Q) (o : rgba) :
  (m == m')%Q -> pixel_agrees cols a m' o -> pixel_agrees cols a m o.
Proof.
  intros Hm [H0 H1]. split.
  - intro H. apply H0. rewrite <- Hm. exact H.
  - intro H. destruct H1 as [Ha [c [Hc [Hmc Hn]]]].
    + intro H'. apply H. rewrite Hm. exact H'.
    + split; [exact Ha|]. exists c. split; [exact Hc|].
      split; [rewrite Hm; exact Hmc | exact Hn].
Qed.

(** C2, as the code has it: construction leaves mask and overlay in
    agreement when the mask it starts from (zeros, or the seed) has the
    shape of the image and holds only integers of [0..nclasses], the
    colour table has a row for every class and [mask_alpha] is not zero;
    and a call of [_onselect] that erases, or that paints with a class id
    of [1..n] for a table of [n] rows, keeps them in agreement, also when
    the rasterizer raises. *)
Theorem overlay_consistent_for_valid_labels :
  (forall (pal : palettes) (sh : nat * nat) (ncls : Z)
          (seed : option (ndarray Q)) (colors : option (list rgba)) (a : Q),
      shape (seeded sh seed) = sh ->
      length (data (seeded sh seed)) = size sh ->
      Forall (in_label_range ncls) (data (seeded sh seed)) ->
      ncls <= Z.of_nat (length (init_colors pal ncls colors a)) ->
      ~ (a == 0)%Q ->
      exists s,
        init pal sh ncls seed colors a = Ok s /\ consistent s /\ table_ok s) /\
  (forall (cp : list vertex -> list (Z * Z) -> result (list bool))
          (vs : list vertex) (s : image_segmenter),
      consistent s -> table_ok s ->
      erasing s = true \/
      1 <= current_class s <= Z.of_nat (length (mask_colors s)) ->
      consistent (snd (_onselect cp vs s)) /\
      table_ok (snd (_onselect cp vs s))).
Proof.
  split.
  - intros pal sh ncls seed colors a Hsh Hlen Hall Hn Ha.
    destruct (init_pixels pal sh ncls seed colors a Hsh Hlen Hn)
      as [s [E [Hm [Hc [Hal [Hos [Hol Hp]]]]]]].
    exists s. split; [exact E|]. split.
    + unfold consistent. rewrite Hm, Hc, Hal, Hos, Hsh.
      split; [reflexivity|].
      apply Forall2_of_nth; [congruence|].
      intros p m o Nm No.
      rewrite Forall_forall in Hall.
      destruct (Hall m (nth_error_In _ _ Nm)) as [i [Hi Hmi]].
      destruct (Hp p m Nm) as [Hin _].
      rewrite (Hin i Hi Hmi) in No. inversion No; subst o.
      apply (pixel_agrees_compat _ _ _ (inject_Z i)); [exact Hmi|].
      destruct (Z.eq_dec i 0) as [Hz|Hnz].
      * subst i. apply blank_agrees.
      * apply class_color_agrees;
          [exact Ha | apply init_colors_alpha | lia].
    + unfold table_ok. rewrite Hal, Hc.
      split; [exact Ha | apply init_colors_alpha].
  - intros cp vs s [Hsh Hall] [Ha Hcols] Hmode.
    assert (Keep : consistent (with_verts vs s) /\ table_ok (with_verts vs s))
      by (split; split; assumption).
    destruct (cp vs (pix s)) as [flat|e] eqn:Hcp.
    2:{ unfold _onselect. simpl. rewrite Hcp. exact Keep. }
    destruct (Nat.eqb (length flat) (size (shape (mask s)))) eqn:Hlen.
    2:{ unfold _onselect, reshape. simpl. rewrite Hcp. simpl.
        rewrite Hlen. exact Keep. }
    apply Nat.eqb_eq in Hlen.
    assert (Hfit : lasso_fits cp vs s flat) by (repeat split; assumption).
    destruct (erasing s) eqn:He.
    + destruct (onselect_erase cp vs s flat Hfit He)
        as [s' [E [Hm [Ho [Hal [Hc _]]]]]].
      rewrite E. simpl. split.
      * unfold consistent. rewrite Hm, Ho, Hal, Hc. unfold painted. simpl.
        split; [exact Hsh|].
        apply where_set_Forall2; [apply blank_agrees | exact Hall].
      * unfold table_ok. rewrite Hal, Hc. split; assumption.
    + destruct Hmode as [Hmode|Hmode]; [discriminate|].
      assert (Hcol : py_index (mask_colors s) (current_class s - 1)
                     = Ok (class_color (mask_colors s) (current_class s))).
      { unfold class_color.
        destruct (current_class s =? 0) eqn:E0; [apply Z.eqb_eq in E0; lia|].
        apply py_index_in_range. lia. }
      destruct (onselect_paint cp vs s flat _ Hfit He Hcol)
        as [s' [E [Hm [Ho [Hal [Hc _]]]]]].
      rewrite E. simpl. split.
      * unfold consistent. rewrite Hm, Ho, Hal, Hc. unfold painted. simpl.
        split; [exact Hsh|].
        apply where_set_Forall2; [|exact Hall].
        apply class_color_agrees; assumption.
      * unfold table_ok. rewrite Hal, Hc. split; assumption.
Qed.

Example init_blank10 :
  init tableau (10%nat, 10%nat) 1 None None (3 # 4) = Ok blank10.
Proof. vm_compute. reflexivity. Qed.

Example init_blank1 :
  init tableau (1%nat, 1%nat) 1 None None (3 # 4) = Ok blank1.
Proof. vm_compute. reflexivity. Qed.

Example init_labelled :
  init tableau (1%nat, 1%nat) 2 (Some seed2) None (3 # 4) = Ok labelled.
Proof. vm_compute. reflexivity. Qed.

Example init_stray :
  init tableau (1%nat, 1%nat) 1 (Some seed2) None (3 # 4) = Ok stray.
Proof. vm_compute. reflexivity. Qed.

Lemma three_quarters_nonzero : ~ (3 # 4 == 0)%Q.
Proof. intro H. discriminate H. Qed.

Lemma blank1_consistent : consistent blank1 /\ table_ok blank1.
Proof.
  split.
  - split; [reflexivity|]. simpl.
    constructor; [apply blank_agrees | constructor].
  - split; [exact three_quarters_nonzero | repeat constructor].
Qed.

Lemma paint_changes_selected_only_witness :
  exists s',
    _onselect path_contains_points square_lasso blank10 = (None, s') /\
    at_xy 10 (data (mask s')) 2 3 = Some 1%Q /\
    at_xy 10 (data (mask s')) 1 3 = Some 0%Q.
Proof.
  destruct (paint_changes_selected_only path_contains_points square_lasso
              blank10 (map above_first_row (make_pix (10%nat, 10%nat))))
    as [s' [E [_ Hsq]]].
  - repeat split; vm_compute; reflexivity.
  - reflexivity.
  - simpl. lia.
  - exists s'. split; [exact E|].
    assert (Hflat : path_contains_points square_lasso
                      (make_pix (10%nat, 10%nat))
                    = Ok (map above_first_row (make_pix (10%nat, 10%nat))))
      by (vm_compute; reflexivity).
    split.
    + apply (Hsq eq_refl eq_refl Hflat 2%nat 3%nat); lia.
    + apply (Hsq eq_refl eq_refl Hflat 1%nat 3%nat); lia.
Defined.

(** C5 fails as stated: on the blank 10 by 10 segmenter with class 1, the
    square lasso paints the pixels of the rows 3 to 7 only; the pixels
    [(2,2)] to [(7,2)] of the row [y = 2], which the claim counts in, keep
    the mask value 0. *)
Lemma square_lasso_leaves_out_first_row :
  init tableau (10%nat, 10%nat) 1 None None (3 # 4) = Ok blank10 /\
  current_class blank10 = 1 /\
  exists s',
    _onselect path_contains_points square_lasso blank10 = (None, s') /\
    in_square (2, 2) = true /\
    at_xy 10 (data (mask s')) 2 2 = Some 0%Q /\
    at_xy 10 (data (mask s')) 7 2 = Some 0%Q /\
    at_xy 10 (data (mask s')) 2 3 = Some 1%Q /\
    length (filter (fun m => Qeq_bool m 1) (data (mask s'))) = 30%nat.
Proof.
  split; [exact init_blank10|]. split; [reflexivity|].
  eexists. split; [vm_compute; reflexivity|].
  vm_compute. repeat split; reflexivity.
Qed.

Lemma paint_raises_outside_index_range_witness :
  fst (_onselect path_contains_points around_origin
         (with_current_class 2 blank1))
  = Some IndexError /\
  fst (_onselect path_contains_points around_origin
         (with_current_class 1 blank1))
  = None /\
  _overlay (snd (_onselect path_contains_points around_origin
                   (with_current_class 0 blank1)))
  = painted [true] (class_color (mask_colors blank1) 1) (_overlay blank1).
Proof.
  split; [|split].
  - destruct (paint_raises_outside_index_range path_contains_points
                around_origin (with_current_class 2 blank1) [true])
      as [H _].
    + repeat split; reflexivity.
    + reflexivity.
    + reflexivity.
    + apply H. simpl. lia.
  - destruct (paint_raises_outside_index_range path_contains_points
                around_origin (with_current_class 1 blank1) [true])
      as [_ H].
    + repeat split; reflexivity.
    + reflexivity.
    + reflexivity.
    + apply H. simpl. lia.
  - destruct (paint_raises_outside_index_range path_contains_points
                around_origin (with_current_class 0 blank1) [true])
      as [_ H].
    + repeat split; reflexivity.
    + reflexivity.
    + reflexivity.
    + destruct H as [_ [_ [_ H]]]; [simpl; lia|].
      apply H. simpl. lia.
Defined.

(** C6 fails as stated: on a segmenter with one class, a paint with class
    id 0 returns normally; the colour comes from the end of the table. *)
Lemma paint_class_zero_accepted :
  init tableau (1%nat, 1%nat) 1 None None (3 # 4) = Ok blank1 /\
  nclasses blank1 = 1 /\
  fst (_onselect path_contains_points around_origin (with_current_class 0 blank1))
  = None /\
  data (mask (snd (_onselect path_contains_points around_origin
                     (with_current_class 0 blank1)))) = [0%Q] /\
  data (_overlay (snd (_onselect path_contains_points around_origin
                         (with_current_class 0 blank1))))
  = [set_alpha (3 # 4) (hex 31 119 180)].
Proof.
  split; [exact init_blank1|]. vm_compute. auto.
Qed.

Lemma paint_then_erase_witness :
  exists s1 s2,
    _onselect path_contains_points around_origin (with_erasing false blank1)
    = (None, s1) /\
    _onselect path_contains_points around_origin (with_erasing true s1) = (None, s2) /\
    mask s2 = mask blank1 /\ _overlay s2 = _overlay blank1.
Proof.
  destruct (paint_then_erase path_contains_points around_origin blank1 [true])
    as [s1 [s2 [E1 [E2 [_ [_ H]]]]]].
  - repeat split; reflexivity.
  - simpl. lia.
  - exists s1, s2. split; [exact E1|]. split; [exact E2|].
    apply H. intros [|p] Hp.
    + split; reflexivity.
    + destruct p; discriminate Hp.
Defined.

(** C3 fails as stated: a pixel that carried label 2 is painted with class
    1 and erased with the same membership mask; it ends unlabelled, not
    with label 2. *)
Lemma paint_then_erase_loses_label :
  init tableau (1%nat, 1%nat) 2 (Some seed2) None (3 # 4) = Ok labelled /\
  let r1 := _onselect path_contains_points around_origin labelled in
  let r2 := _onselect path_contains_points around_origin (with_erasing true (snd r1)) in
  fst r1 = None /\ fst r2 = None /\
  data (mask labelled) = [2%Q] /\ data (mask (snd r2)) = [0%Q] /\
  mask (snd r2) <> mask labelled /\
  _overlay (snd r2) <> _overlay labelled.
Proof.
  split; [exact init_labelled|]. vm_compute.
  repeat split; try reflexivity; intro Hne; discriminate Hne.
Qed.

Lemma seed_outside_range_is_transparent_witness :
  exists s,
    init tableau (1%nat, 1%nat) 1 (Some seed2) None (3 # 4) = Ok s /\
    mask s = seed2 /\
    nth_error (data (_overlay s)) 0 = Some transparent.
Proof.
  destruct (seed_outside_range_is_transparent tableau (1%nat, 1%nat) 1 seed2
              None (3 # 4)) as [s [E [M H]]].
  - reflexivity.
  - reflexivity.
  - simpl. lia.
  - exists s. split; [exact E|]. split; [exact M|].
    apply (H 0%nat 2%Q eq_refl).
    intros [i [Hi Hm]]. unfold Qeq in Hm. simpl in Hm. lia.
Defined.

Lemma overlay_consistent_for_valid_labels_witness :
  (exists s,
      init tableau (1%nat, 1%nat) 1 None None (3 # 4) = Ok s /\
      consistent s /\ table_ok s) /\
  consistent (snd (_onselect path_contains_points around_origin blank1)) /\
  table_ok (snd (_onselect path_contains_points around_origin blank1)).
Proof.
  destruct overlay_consistent_for_valid_labels as [T1 T2]. split.
  - apply T1.
    + reflexivity.
    + reflexivity.
    + repeat constructor. exists 0. split; [lia | reflexivity].
    + simpl. lia.
    + exact three_quarters_nonzero.
  - apply T2.
    + apply blank1_consistent.
    + apply blank1_consistent.
    + right. simpl. lia.
Defined.

(** C2 fails as stated: constructed with one class and a seed mask that
    holds the label 2, the segmenter has a labelled pixel with the
    transparent overlay entry. *)
Lemma seeded_label_without_colour :
  init tableau (1%nat, 1%nat) 1 (Some seed2) None (3 # 4) = Ok stray /\
  data (mask stray) = [2%Q] /\
  data (_overlay stray) = [transparent] /\
  ~ consistent stray.
Proof.
  split; [exact init_stray|]. split; [reflexivity|]. split; [reflexivity|].
  intros [_ H]. simpl in H. inversion H as [|m o l k Hp _]; subst.
  destruct Hp as [_ Hp]. destruct Hp as [Ha _].
  - intro E. discriminate E.
  - apply Ha. reflexivity.
Qed.

(** *** Degenerate lassos *)

Lemma crosses_level (p0 p1 t : vertex) :
  snd p0 = snd p1 -> crosses p0 p1 t = false.
Proof.
  destruct p0 as [x0 y0], p1 as [x1 y1], t as [tx ty]. simpl.
  intro E. subst y1. rewrite Bool.eqb_reflx. reflexivity.
Qed.

Lemma crossings_level (y : float) (rest : list vertex) (p0 t : vertex) :
  snd p0 = y -> Forall (fun v => snd v = y) rest ->
  crossings p0 rest t = false.
Proof.
  intros H0 H. revert p0 H0.
  induction H as [|p1 rest H1 H IH]; intros p0 H0; simpl; [reflexivity|].
  rewrite crosses_level by congruence. rewrite IH by exact H1. reflexivity.
Qed.

Lemma last_level (y : float) (rest : list vertex) (start : vertex) :
  snd start = y -> Forall (fun v => snd v = y) rest ->
  snd (last rest start) = y.
Proof.
  intros H0 H. induction H as [|p1 rest H1 H IH]; [exact H0|].
  simpl. destruct rest; [exact H1 | exact IH].
Qed.

Lemma subpath_flag_level (y : float) (closed : bool) (sub : list vertex)
  (t : vertex) :
  Forall (fun v => snd v = y) sub -> subpath_flag closed sub t = false.
Proof.
  intro H. destruct H as [|start rest H0 H]; simpl; [reflexivity|].
  rewrite (crossings_level y) by assumption.
  rewrite crosses_level; [destruct closed; reflexivity|].
  rewrite (last_level y) by assumption. congruence.
Qed.

Lemma inside_flag_level (y : float) (subs : list (list vertex)) (t : vertex) :
  Forall (Forall (fun v => snd v = y)) subs -> inside_flag subs t = false.
Proof.
  intro H. induction H as [|sub subs Hs H IH]; simpl; [reflexivity|].
  destruct subs as [|sub' subs'].
  - apply (subpath_flag_level y). exact Hs.
  - rewrite (subpath_flag_level y) by exact Hs. exact IH.
Qed.

Lemma split_at_nan_Forall (P : vertex -> Prop) (vs : list vertex) :
  Forall P vs -> Forall (Forall P) (split_at_nan vs).
Proof.
  intro H. induction H as [|v vs Hv H IH]; simpl.
  - repeat constructor.
  - destruct (finite_vertex v).
    + destruct (split_at_nan vs) as [|sub subs].
      * repeat constructor. exact Hv.
      * inversion IH; subst. constructor; [constructor|]; assumption.
    + constructor; [constructor | exact IH].
Qed.

Lemma subpaths_Forall (P : vertex -> Prop) (vs : list vertex) :
  Forall P vs -> Forall (Forall P) (subpaths vs).
Proof.
  intro H. unfold subpaths. apply Forall_forall. intros sub Hin.
  apply filter_In in Hin. destruct Hin as [Hin _].
  pose proof (split_at_nan_Forall P vs H) as F.
  rewrite Forall_forall in F. apply F. exact Hin.
Qed.

Lemma map_false {A : Type} (f : A -> bool) (l : list A) :
  (forall a, f a = false) -> map f l = repeat false (length l).
Proof.
  intro H. induction l as [|a l IH]; simpl; [reflexivity|].
  rewrite H, IH. reflexivity.
Qed.

(** C8, as the code has it: for a lasso of one or two vertices, and for a
    lasso whose vertices all lie at one height, those of a lasso
    duplicated at one point among them, the rasterizer returns an
    all-false membership mask and raises nothing, and the callback leaves
    mask and overlay of every pixel as they were. *)
Theorem degenerate_lasso_selects_nothing
  (vs : list vertex) (s : image_segmenter) :
  (1 <= length vs < 3)%nat \/
  (vs <> [] /\ exists y, Forall (fun v => snd v = y) vs) ->
  path_contains_points vs (pix s) = Ok (repeat false (length (pix s))) /\
  mask (snd (_onselect path_contains_points vs s)) = mask s /\
  _overlay (snd (_onselect path_contains_points vs s)) = _overlay s.
Proof.
  intro H.
  assert (R : path_contains_points vs (pix s)
              = Ok (repeat false (length (pix s)))).
  { unfold path_contains_points.
    destruct vs as [|v vs]; [destruct H as [H|[H _]]; [simpl in H; lia|
                                                      contradiction]|].
    unfold Path, bind. f_equal. apply map_false. intro pt.
    destruct H as [H|[_ [y H]]].
    - assert (E : (length (v :: vs) <? 3)%nat = true)
        by (apply Nat.ltb_lt; lia).
      rewrite E. reflexivity.
    - destruct (length (v :: vs) <? 3)%nat; [reflexivity|].
      apply (inside_flag_level y). apply subpaths_Forall. exact H. }
  split; [exact R|].
  apply empty_selection_changes_nothing. exact R.
Qed.

Lemma degenerate_lasso_selects_nothing_witness :
  path_contains_points [(3, 4); (3, 4)]%float (pix blank10)
  = Ok (repeat false 100) /\
  mask (snd (_onselect path_contains_points
               [(2, 5); (7, 5); (4, 5); (2, 5)]%float blank10))
  = mask blank10.
Proof.
  split.
  - destruct (degenerate_lasso_selects_nothing [(3, 4); (3, 4)]%float blank10)
      as [H _]; [left; simpl; lia | exact H].
  - destruct (degenerate_lasso_selects_nothing
                [(2, 5); (7, 5); (4, 5); (2, 5)]%float blank10)
      as [_ [H _]]; [|exact H].
    right. split; [discriminate|].
    exists 5%float. repeat constructor.
Defined.

(** C8 fails as stated: the lasso [(0,0), (2,2), (4,4)] has three vertices
    on one line and encloses no area, yet the rasterizer marks the pixels
    [(1,1)] to [(4,4)] on that line, and a paint with class 1 labels
    them.  A lasso without any vertex makes no path: the rasterizer
    raises [ValueError]. *)
Lemma collinear_lasso_selects_pixels :
  (exists s',
      _onselect path_contains_points [(0, 0); (2, 2); (4, 4)]%float blank10
      = (None, s') /\
      at_xy 10 (data (mask blank10)) 1 1 = Some 0%Q /\
      at_xy 10 (data (mask s')) 1 1 = Some 1%Q /\
      length (filter (fun m => Qeq_bool m 1) (data (mask s'))) = 4%nat) /\
  path_contains_points [] (pix blank10) = Raise ValueError.
Proof.
  split; [|reflexivity].
  eexists. split; [vm_compute; reflexivity|].
  vm_compute. repeat split; reflexivity.
Qed.

(** *** Further properties of the segmenter *)

Lemma make_pix_rows (W : nat) (rows s x y : nat) :
  (x < W)%nat -> (y < rows)%nat ->
  nth_error
    (flat_map (fun r => map (fun c => (Z.of_nat c, Z.of_nat r)) (seq 0 W))
       (seq s rows))
    (y * W + x)
  = Some (Z.of_nat x, Z.of_nat (s + y)).
Proof.
  intro Hx. revert s y. induction rows as [|rows IH]; intros s y Hy; [lia|].
  simpl. destruct y as [|y].
  - simpl. rewrite nth_error_app1 by (rewrite length_map, length_seq; exact Hx).
    rewrite nth_error_map, nth_error_seq.
    destruct (Nat.ltb_spec x W) as [_|Hge]; [|lia].
    simpl. rewrite Nat.add_0_r. reflexivity.
  - rewrite nth_error_app2 by (rewrite length_map, length_seq; simpl; lia).
    rewrite length_map, length_seq.
    replace (S y * W + x - W)%nat with (y * W + x)%nat by (simpl; lia).
    rewrite IH by lia. do 2 f_equal. lia.
Qed.

Lemma make_pix_rows_length (W rows s : nat) :
  length
    (flat_map (fun r => map (fun c => (Z.of_nat c, Z.of_nat r)) (seq 0 W))
       (seq s rows))
  = (rows * W)%nat.
Proof.
  revert s. induction rows as [|rows IH]; intro s; simpl.
  - reflexivity.
  - rewrite length_app, length_map, length_seq, IH. reflexivity.
Qed.

(** The pixel index table is row-major and complete: for an image of [H]
    rows and [W] columns it has [H * W] points, and the point at position
    [y * W + x] is [(x, y)], the position of that pixel in the flattened
    mask. *)
Theorem pix_is_row_major (H W x y : nat) :
  (x < W)%nat -> (y < H)%nat ->
  length (make_pix (H, W)) = (H * W)%nat /\
  nth_error (make_pix (H, W)) (y * W + x) = Some (Z.of_nat x, Z.of_nat y).
Proof.
  intros Hx Hy. unfold make_pix. simpl. split.
  - apply make_pix_rows_length.
  - apply (make_pix_rows W H 0 x y Hx Hy).
Qed.

Lemma pix_is_row_major_witness :
  length (make_pix (10%nat, 10%nat)) = 100%nat /\
  nth_error (make_pix (10%nat, 10%nat)) 72 = Some (2, 7).
Proof.
  apply (pix_is_row_major 10 10 2 7); lia.
Defined.

Lemma where_set_Forall {A : Type} (P : A -> Prop) (idx : list bool) (v : A)
  (l : list A) :
  P v -> Forall P l -> Forall P (where_set idx v l).
Proof.
  intros Hv H. revert idx. induction H as [|x l Hx H IH]; intro idx.
  - destruct idx; constructor.
  - destruct idx as [|b idx]; simpl.
    + constructor; assumption.
    + constructor; [destruct b; assumption | apply IH].
Qed.

(** A segmenter made without a seed mask starts blank: when the colour
    table has a row for every class, construction succeeds with a mask of
    zeros and an all-transparent overlay of the shape of the image, class 1
    selected and erasing off. *)
Theorem init_without_seed_is_blank
  (pal : palettes) (sh : nat * nat) (ncls : Z)
  (colors : option (list rgba)) (a : Q) :
  ncls <= Z.of_nat (length (init_colors pal ncls colors a)) ->
  exists s,
    init pal sh ncls None colors a = Ok s /\
    mask s = full sh 0%Q /\
    _overlay s = full sh transparent /\
    current_class s = 1 /\ erasing s = false /\ pix s = make_pix sh.
Proof.
  intro Hn.
  destruct (init_pixels pal sh ncls None colors a) as
    [s [E [Hm [_ [_ [Hos [Hol Hp]]]]]]].
  - reflexivity.
  - simpl. apply repeat_length.
  - exact Hn.
  - exists s. split; [exact E|]. split; [exact Hm|].
    assert (F : current_class s = 1 /\ erasing s = false /\ pix s = make_pix sh).
    { unfold init in E. apply ZoomFacts.bind_ok in E.
      destruct E as [o [_ E]]. inversion E; subst s. simpl. auto. }
    split; [|exact F].
    assert (D : data (_overlay s) = repeat transparent (size sh)).
    { apply nth_error_ext. intro p.
      destruct (Nat.ltb_spec p (size sh)) as [Hlt|Hge].
      - rewrite (nth_error_repeat transparent Hlt).
        assert (Nm : nth_error (data (seeded sh None)) p = Some 0%Q)
          by (simpl; apply nth_error_repeat; exact Hlt).
        destruct (Hp p 0%Q Nm) as [Hin Hout].
        destruct (Z_lt_le_dec ncls 0) as [Hneg|Hpos].
        + apply Hout. intros [i [Hi _]]. lia.
        + rewrite (Hin 0 ltac:(lia) ltac:(reflexivity)). reflexivity.
      - assert (N1 : nth_error (data (_overlay s)) p = None)
          by (apply nth_error_None; lia).
        assert (N2 : nth_error (repeat transparent (size sh)) p = None)
          by (apply nth_error_None; rewrite repeat_length; lia).
        congruence. }
    destruct (_overlay s) as [osh od]. simpl in *. subst. reflexivity.
Qed.

Lemma init_without_seed_is_blank_witness :
  exists s,
    init tableau (10%nat, 10%nat) 3 None None (3 # 4) = Ok s /\
    mask s = full (10%nat, 10%nat) 0%Q /\
    _overlay s = full (10%nat, 10%nat) transparent.
Proof.
  destruct (init_without_seed_is_blank tableau (10%nat, 10%nat) 3 None (3 # 4))
    as [s [E [M [O _]]]].
  - simpl. lia.
  - exists s. split; [exact E|]. split; [exact M | exact O].
Defined.

Lemma init_overlay_loop_short_table (colors : list rgba) (m : ndarray Q)
  (ks : list Z) :
  (forall i, In i ks -> 0 <= i) ->
  (exists k, In k ks /\ Z.of_nat (length colors) < k) ->
  forall o : ndarray rgba,
    shape o = shape m ->
    init_overlay_loop colors m o ks = Raise IndexError.
Proof.
  induction ks as [|i ks IH]; intros Hpos [k [Hk Hbig]] o Hsh.
  - contradiction.
  - simpl. destruct (Z_le_gt_dec i (Z.of_nat (length colors))) as [Hle|Hgt].
    + rewrite init_overlay_step_ok;
        [|exact Hsh | split; [apply Hpos; left; reflexivity | exact Hle]].
      simpl. apply IH.
      * intros j Hj. apply Hpos. right. exact Hj.
      * exists k. split; [|exact Hbig].
        destruct Hk as [Hk|Hk]; [subst; lia | exact Hk].
      * exact Hsh.
    + unfold init_overlay_step.
      assert (E : (i =? 0) = false) by (apply Z.eqb_neq; lia). rewrite E.
      rewrite py_index_out_of_range by lia. reflexivity.
Qed.

(** A colour table with fewer rows than classes is not accepted: when
    [mask_colors] (or the palette) gives fewer colours than [nclasses],
    construction raises [IndexError] in the overlay loop. *)
Theorem init_too_few_colours
  (pal : palettes) (sh : nat * nat) (ncls : Z)
  (seed : option (ndarray Q)) (colors : option (list rgba)) (a : Q) :
  shape (seeded sh seed) = sh ->
  Z.of_nat (length (init_colors pal ncls colors a)) < ncls ->
  init pal sh ncls seed colors a = Raise IndexError.
Proof.
  intros Hsh Hn. unfold init.
  rewrite init_overlay_loop_short_table; [reflexivity | | | ].
  - intros i Hi. apply py_range_In in Hi. lia.
  - exists ncls. split; [apply py_range_In; lia | exact Hn].
  - simpl. symmetry. exact Hsh.
Qed.

Lemma init_too_few_colours_witness :
  init tableau (1%nat, 1%nat) 2 None (Some [hex 255 0 0]) (3 # 4)
  = Raise IndexError.
Proof.
  apply init_too_few_colours.
  - reflexivity.
  - simpl. lia.
Defined.

Lemma index_fits_false (b a : nat * nat) :
  (fst b <> 0%nat /\ fst b <> fst a) \/ (snd b <> 0%nat /\ snd b <> snd a) ->
  shape_eqb b a = false /\ index_fits b a = false.
Proof.
  intro H. unfold shape_eqb, index_fits, dim_fits.
  destruct H as [[H0 H1]|[H0 H1]].
  - apply Nat.eqb_neq in H0. apply Nat.eqb_neq in H1. rewrite H0, H1.
    split; reflexivity.
  - apply Nat.eqb_neq in H0. apply Nat.eqb_neq in H1. rewrite H0, H1.
    split; apply andb_false_r.
Qed.

(** A two-dimensional seed mask one of whose dimensions is not empty and
    differs from that of the image is not accepted: for a non-negative
    [nclasses], construction raises [IndexError] at the first write into
    the overlay. *)
Theorem init_seed_shape_mismatch
  (pal : palettes) (sh : nat * nat) (ncls : Z) (seed : ndarray Q)
  (colors : option (list rgba)) (a : Q) :
  (fst (shape seed) <> 0%nat /\ fst (shape seed) <> fst sh) \/
  (snd (shape seed) <> 0%nat /\ snd (shape seed) <> snd sh) ->
  0 <= ncls ->
  init pal sh ncls (Some seed) colors a = Raise IndexError.
Proof.
  intros Hsh Hn. unfold init, py_range.
  destruct (Z.to_nat (ncls + 1)) as [|k] eqn:E; [lia|].
  simpl. unfold init_overlay_step, assign_where. simpl.
  destruct (index_fits_false (shape seed) sh Hsh) as [S F].
  rewrite S, F. reflexivity.
Qed.

Lemma init_seed_shape_mismatch_witness :
  init tableau (2%nat, 2%nat) 1 (Some seed2) None (3 # 4) = Raise IndexError.
Proof.
  apply init_seed_shape_mismatch.
  - left. simpl. split; discriminate.
  - lia.
Defined.

(** numpy does not compare an empty dimension of a boolean index: an
    empty seed of shape [(2, 0)] is accepted for an image of shape
    [(2, 3)], and the overlay starts all transparent. *)
Example init_empty_seed_accepted :
  exists s,
    init tableau (2%nat, 3%nat) 1
      (Some {| shape := (2%nat, 0%nat); data := [] |}) None (3 # 4) = Ok s /\
    _overlay s = full (2%nat, 3%nat) transparent.
Proof. eexists. split; vm_compute; reflexivity. Qed.

(** Whatever its outcome, [_onselect] never resizes the mask or the
    overlay and never touches the colour table, [mask_alpha], [nclasses],
    the pixel table, [current_class] or [erasing]. *)
Theorem onselect_keeps_shapes
  (cp : list vertex -> list (Z * Z) -> result (list bool))
  (vs : list vertex) (s : image_segmenter) :
  shape (mask (snd (_onselect cp vs s))) = shape (mask s) /\
  length (data (mask (snd (_onselect cp vs s)))) = length (data (mask s)) /\
  shape (_overlay (snd (_onselect cp vs s))) = shape (_overlay s) /\
  length (data (_overlay (snd (_onselect cp vs s))))
  = length (data (_overlay s)) /\
  same_config s (snd (_onselect cp vs s)).
Proof.
  unfold _onselect, same_config. simpl.
  destruct (cp vs (pix s)) as [flat|e]; simpl; [|repeat split].
  unfold reshape.
  destruct (Nat.eqb (length flat) (size (shape (mask s)))); simpl;
    [|repeat split].
  destruct (erasing s) eqn:He;
    unfold and_then, set_mask_where, set_overlay_where, assign_where; simpl;
    rewrite shape_eqb_refl; simpl.
  - destruct (shape_eqb (shape (mask s)) (shape (_overlay s)));
        [|destruct (index_fits (shape (mask s)) (shape (_overlay s)))]; simpl;
      rewrite ?where_set_length; repeat split; auto.
  - destruct (py_index (mask_colors s) (current_class s - 1)); simpl;
      [destruct (shape_eqb (shape (mask s)) (shape (_overlay s)));
        [|destruct (index_fits (shape (mask s)) (shape (_overlay s)))]; simpl|];
      rewrite ?where_set_length; repeat split; auto.
Qed.

(** The labels stay in range: when [current_class] is one of [0..n] and
    every mask value is one of the integers [0..n], so is every mask value
    after [_onselect], whether it painted, erased or raised. *)
Theorem onselect_keeps_labels_in_range
  (cp : list vertex -> list (Z * Z) -> result (list bool))
  (vs : list vertex) (s : image_segmenter) (n : Z) :
  0 <= current_class s <= n ->
  Forall (in_label_range n) (data (mask s)) ->
  Forall (in_label_range n) (data (mask (snd (_onselect cp vs s)))).
Proof.
  intros Hc Hall.
  assert (P0 : in_label_range n 0%Q)
    by (exists 0; split; [lia | reflexivity]).
  assert (Pc : in_label_range n (inject_Z (current_class s)))
    by (exists (current_class s); split; [lia | reflexivity]).
  unfold _onselect. simpl.
  destruct (cp vs (pix s)) as [flat|e]; simpl; [|exact Hall].
  unfold reshape.
  destruct (Nat.eqb (length flat) (size (shape (mask s)))); simpl;
    [|exact Hall].
  destruct (erasing s) eqn:He;
    unfold and_then, set_mask_where, set_overlay_where, assign_where; simpl;
    rewrite shape_eqb_refl; simpl.
  - destruct (shape_eqb (shape (mask s)) (shape (_overlay s)));
        [|destruct (index_fits (shape (mask s)) (shape (_overlay s)))]; simpl;
      apply where_set_Forall; assumption.
  - destruct (py_index (mask_colors s) (current_class s - 1)); simpl;
      [destruct (shape_eqb (shape (mask s)) (shape (_overlay s)));
        [|destruct (index_fits (shape (mask s)) (shape (_overlay s)))]; simpl|];
      apply where_set_Forall; assumption.
Qed.

Lemma onselect_keeps_labels_in_range_witness :
  Forall (in_label_range 1)
    (data (mask (snd (_onselect path_contains_points square_lasso
                       blank10)))).
Proof.
  apply onselect_keeps_labels_in_range.
  - simpl. lia.
  - change (Forall (in_label_range 1) (repeat 0%Q 100)).
    apply Forall_forall. intros m Hm.
    apply repeat_spec in Hm. subst m.
    exists 0. split; [lia | reflexivity].
Defined.

(** A lasso that raises never changes the overlay or the image on
    display, whatever it did to the mask before raising. *)
Theorem failed_lasso_keeps_overlay
  (cp : list vertex -> list (Z * Z) -> result (list bool))
  (vs : list vertex) (s : image_segmenter) (e : exn) :
  fst (_onselect cp vs s) = Some e ->
  _overlay (snd (_onselect cp vs s)) = _overlay s /\
  shown (snd (_onselect cp vs s)) = shown s.
Proof.
  unfold _onselect. simpl.
  destruct (cp vs (pix s)) as [flat|e0]; simpl; [|auto].
  unfold reshape.
  destruct (Nat.eqb (length flat) (size (shape (mask s)))); simpl; [|auto].
  destruct (erasing s) eqn:He;
    unfold and_then, set_mask_where, set_overlay_where, assign_where; simpl;
    rewrite shape_eqb_refl; simpl.
  - destruct (shape_eqb (shape (mask s)) (shape (_overlay s)));
        [|destruct (index_fits (shape (mask s)) (shape (_overlay s)))]; simpl;
      [discriminate | discriminate | auto].
  - destruct (py_index (mask_colors s) (current_class s - 1)); simpl;
      [destruct (shape_eqb (shape (mask s)) (shape (_overlay s)));
        [|destruct (index_fits (shape (mask s)) (shape (_overlay s)))]; simpl;
       [discriminate | discriminate | auto] | auto].
Qed.

Lemma failed_lasso_keeps_overlay_witness :
  _overlay (snd (_onselect path_contains_points around_origin
                   (with_current_class 2 blank1))) = _overlay blank1 /\
  shown (snd (_onselect path_contains_points around_origin
                (with_current_class 2 blank1))) = shown blank1.
Proof.
  apply (failed_lasso_keeps_overlay path_contains_points around_origin
           (with_current_class 2 blank1) IndexError).
  reflexivity.
Defined.

(** The last paint wins: painting a lasso with one class and then the same
    lasso with another class gives the mask and the overlay that painting
    with the second class alone gives. *)
Theorem second_paint_overrides_first
  (cp : list vertex -> list (Z * Z) -> result (list bool))
  (vs : list vertex) (s : image_segmenter) (flat : list bool) (a b : Z) :
  lasso_fits cp vs s flat -> erasing s = false ->
  1 <= a <= Z.of_nat (length (mask_colors s)) ->
  1 <= b <= Z.of_nat (length (mask_colors s)) ->
  let s1 := snd (_onselect cp vs (with_current_class a s)) in
  let s2 := snd (_onselect cp vs (with_current_class b s1)) in
  let sb := snd (_onselect cp vs (with_current_class b s)) in
  fst (_onselect cp vs (with_current_class b s1)) = None /\
  mask s2 = mask sb /\ _overlay s2 = _overlay sb.
Proof.
  intros Hfit He Ha Hb.
  assert (Col : forall c, 1 <= c <= Z.of_nat (length (mask_colors s)) ->
                py_index (mask_colors s) (c - 1)
                = Ok (class_color (mask_colors s) c)).
  { intros c Hc. unfold class_color.
    destruct (c =? 0) eqn:E; [apply Z.eqb_eq in E; lia|].
    apply py_index_in_range. lia. }
  destruct (onselect_paint cp vs (with_current_class a s) flat _ Hfit He
              (Col a Ha)) as [s1 [E1 [M1 [O1 C1]]]].
  destruct (onselect_paint cp vs (with_current_class b s) flat _ Hfit He
              (Col b Hb)) as [sb [Eb [Mb [Ob _]]]].
  simpl in M1, O1, Mb, Ob.
  destruct C1 as [_ [Hcols [_ [_ [Hpix [_ Hers]]]]]]. simpl in Hcols, Hpix, Hers.
  assert (Hfit1 : lasso_fits cp vs (with_current_class b s1) flat).
  { destruct Hfit as [Hcp [Hlen Hsh]]. unfold lasso_fits. simpl.
    rewrite Hpix, M1, O1. simpl. auto. }
  assert (Col1 : py_index (mask_colors (with_current_class b s1))
                   (current_class (with_current_class b s1) - 1)
                 = Ok (class_color (mask_colors s) b)).
  { simpl. rewrite Hcols. apply Col, Hb. }
  destruct (onselect_paint cp vs (with_current_class b s1) flat _ Hfit1
              ltac:(simpl; congruence) Col1) as [s2 [E2 [M2 [O2 _]]]].
  simpl in M2, O2. cbv zeta. rewrite E1. simpl. rewrite E2, Eb. simpl.
  split; [reflexivity|].
  rewrite M2, M1, Mb, O2, O1, Ob. unfold painted. simpl.
  rewrite !where_set_twice. auto.
Qed.

Lemma second_paint_overrides_first_witness :
  let s := labelled in
  let s1 := snd (_onselect path_contains_points around_origin (with_current_class 1 s)) in
  let s2 := snd (_onselect path_contains_points around_origin (with_current_class 2 s1)) in
  let sb := snd (_onselect path_contains_points around_origin (with_current_class 2 s)) in
  fst (_onselect path_contains_points around_origin (with_current_class 2 s1)) = None /\
  mask s2 = mask sb /\ _overlay s2 = _overlay sb.
Proof.
  apply (second_paint_overrides_first path_contains_points around_origin labelled
           [true] 1 2).
  - repeat split; reflexivity.
  - reflexivity.
  - simpl. lia.
  - simpl. lia.
Defined.

End SegmenterFacts.

(** ** The heatmap slicer *)

Module SlicerFacts.
Import Slicer.

Lemma slices_flags_valid (slices : string) :
  valid_slices slices -> exists f, slices_flags slices = Ok f.
Proof.
  intros [H|[H|H]]; subst; eexists; reflexivity.
Qed.

Lemma slices_flags_invalid (slices : string) :
  ~ valid_slices slices -> slices_flags slices = Raise ValueError.
Proof.
  intro H. unfold slices_flags.
  destruct (String.eqb_spec slices "both") as [E|_];
    [exfalso; apply H; left; exact E|].
  destruct (String.eqb_spec slices "horizontal") as [E|_];
    [exfalso; apply H; right; left; exact E|].
  destruct (String.eqb_spec slices "vertical") as [E|_];
    [exfalso; apply H; right; right; exact E|].
  reflexivity.
Qed.

(** The value of [slices] is checked before anything else: a value other
    than ['both'], ['horizontal'] and ['vertical'] raises [ValueError]
    whatever the heatmaps and the names are, also for inputs that would
    fail another check. *)
Theorem slices_checked_first
  (slices : string) (shape : list nat) (names : names_arg) :
  ~ valid_slices slices ->
  slicer_layout slices shape names = Raise ValueError.
Proof.
  intro H. unfold slicer_layout.
  rewrite (slices_flags_invalid slices H). reflexivity.
Qed.

Lemma slices_checked_first_witness :
  slicer_layout "diagonal" [] NoNames = Raise ValueError.
Proof.
  apply slices_checked_first.
  intros [H|[H|H]]; discriminate H.
Defined.

(** For an accepted value of [slices], the checks on the heatmaps and the
    names pass exactly for 2-d heatmaps (with any names) and for 3-d
    heatmaps with no names or with a list of exactly one name per heatmap:
    a single string, or a list with more names than heatmaps, is
    refused. *)
Theorem layout_accepts_iff
  (slices : string) (shape : list nat) (names : names_arg) :
  valid_slices slices ->
  (exists lay, slicer_layout slices shape names = Ok lay)
  <-> accepted shape names.
Proof.
  intro Hv. destruct (slices_flags_valid slices Hv) as [[[[[h v] nl] ha] va] Hf].
  unfold slicer_layout. rewrite Hf. simpl. split.
  - intros [lay H].
    destruct shape as [|n [|r [|c [|d shape]]]].
    + destruct names; simpl in H; discriminate.
    + destruct names; simpl in H; discriminate.
    + left. eauto.
    + right. exists n, r, c. split; [reflexivity|].
      destruct names as [|s|l]; simpl in H.
      * left. reflexivity.
      * discriminate.
      * right. exists l. split; [reflexivity|].
        destruct (Nat.eqb (length l) n) eqn:E; simpl in H; [|discriminate].
        apply Nat.eqb_eq, E.
    + destruct names; simpl in H; discriminate.
  - intros [[r [c Hs]]|[n [r [c [Hs Hn]]]]]; subst shape.
    + destruct names; simpl; eexists; reflexivity.
    + destruct Hn as [Hn|[l [Hn Hl]]]; subst names; simpl.
      * rewrite length_map, length_seq, Nat.eqb_refl. simpl.
        eexists; reflexivity.
      * rewrite Hl, Nat.eqb_refl. simpl. eexists; reflexivity.
Qed.

Lemma layout_accepts_iff_witness :
  (exists lay,
      slicer_layout "both" [2; 5; 5]%nat (NameList ["a"; "b"; "c"]%string)
      = Ok lay)
  <-> accepted [2; 5; 5]%nat (NameList ["a"; "b"; "c"]%string).
Proof.
  apply layout_accepts_iff. left. reflexivity.
Defined.

(** The refusal of a names list that is longer than the number of
    heatmaps, which the error message of the check does not announce. *)
Example more_names_than_heatmaps :
  slicer_layout "both" [2; 5; 5]%nat (NameList ["a"; "b"; "c"]%string)
  = Raise ValueError.
Proof. reflexivity. Qed.

(** What the function has worked out when it makes the figure: two trace
    panels for ['both'] and one otherwise, with the flags that go with
    [slices]; heatmaps of three dimensions, a single 2-d heatmap having
    been given a leading dimension of 1; one axes per heatmap plus the
    trace panels; and, for 3-d input, one name per heatmap. *)
Theorem layout_counts
  (slices : string) (shape : list nat) (names : names_arg) (lay : layout) :
  slicer_layout slices shape names = Ok lay ->
  horiz lay = (String.eqb slices "both" || String.eqb slices "horizontal") /\
  vert lay = (String.eqb slices "both" || String.eqb slices "vertical") /\
  num_line_axes lay = (if String.eqb slices "both" then 2 else 1)%nat /\
  length (heatmaps_shape lay) = 3%nat /\
  num_axes lay = (num_line_axes lay + hd 0 (heatmaps_shape lay))%nat /\
  (length shape = 3%nat ->
   length (heatmap_names lay) = hd 0%nat (heatmaps_shape lay)) /\
  (length shape = 2%nat -> heatmaps_shape lay = 1%nat :: shape).
Proof.
  unfold slicer_layout. intro H.
  apply ZoomFacts.bind_ok in H. destruct H as [f [Hf H]].
  assert (F : f = (String.eqb slices "both" || String.eqb slices "horizontal",
                   String.eqb slices "both" || String.eqb slices "vertical",
                   (if String.eqb slices "both" then 2 else 1)%nat,
                   (if String.eqb slices "both" then -2 else -1)%Z, (-1)%Z)).
  { unfold slices_flags in Hf.
    destruct (String.eqb_spec slices "both") as [E|_];
      [subst slices; inversion Hf; reflexivity|].
    destruct (String.eqb_spec slices "horizontal") as [E|_];
      [subst slices; inversion Hf; reflexivity|].
    destruct (String.eqb_spec slices "vertical") as [E|_];
      [subst slices; inversion Hf; reflexivity|].
    discriminate. }
  subst f. simpl in H.
  apply ZoomFacts.bind_ok in H. destruct H as [nm [Hn H]].
  destruct shape as [|n [|r [|c [|d shape]]]]; simpl in H; try discriminate.
  - inversion H; subst lay. simpl. repeat split; auto; discriminate.
  - destruct nm as [|s|l]; try discriminate.
    destruct (Nat.eqb (length l) n) eqn:E; simpl in H; [|discriminate].
    apply Nat.eqb_eq in E.
    inversion H; subst lay. simpl. repeat split; auto; discriminate.
Qed.

Lemma layout_counts_witness :
  exists lay,
    slicer_layout "both" [4; 5]%nat (NameStr "field") = Ok lay /\
    num_axes lay = 3%nat /\ heatmaps_shape lay = [1; 4; 5]%nat /\
    horiz lay = true /\ vert lay = true.
Proof.
  eexists. split; [reflexivity|].
  destruct (layout_counts "both" [4; 5]%nat (NameStr "field") _ eq_refl)
    as [Hh [Hv [_ [_ [Hn [_ Hs]]]]]].
  split; [exact Hn|]. split; [exact (Hs eq_refl)|].
  split; [exact Hh | exact Hv].
Defined.

(** Heatmaps that are neither 2-d nor 3-d are refused, with [ValueError]
    in all cases but one: for a 0-d array and no names, the default names
    are computed first and [heatmaps.shape[0]] raises [IndexError]. *)
Theorem layout_wrong_dimension
  (slices : string) (shape : list nat) (names : names_arg) :
  valid_slices slices ->
  length shape <> 2%nat -> length shape <> 3%nat ->
  slicer_layout slices shape names
  = match shape, names with
    | [], NoNames => Raise IndexError
    | _, _ => Raise ValueError
    end.
Proof.
  intros Hv H2 H3.
  destruct (slices_flags_valid slices Hv) as [[[[[h v] nl] ha] va] Hf].
  unfold slicer_layout. rewrite Hf. simpl.
  destruct shape as [|n [|r [|c [|d shape]]]];
    try (exfalso; apply H2; reflexivity);
    try (exfalso; apply H3; reflexivity);
    destruct names; reflexivity.
Qed.

Lemma layout_wrong_dimension_witness :
  slicer_layout "vertical" [] NoNames = Raise IndexError /\
  slicer_layout "vertical" [7]%nat NoNames = Raise ValueError.
Proof.
  split.
  - apply (layout_wrong_dimension "vertical" [] NoNames).
    + right. right. reflexivity.
    + discriminate.
    + discriminate.
  - apply (layout_wrong_dimension "vertical" [7]%nat NoNames).
    + right. right. reflexivity.
    + discriminate.
    + discriminate.
Defined.

(** For a single 2-d heatmap the names are not checked against the number
    of heatmaps: a string becomes the one name, a list is kept as it is
    whatever its length, and with no names given the default is one name
    per row of the heatmap. *)
Theorem layout_2d_names
  (slices : string) (r c : nat) (names : names_arg) (lay : layout) :
  slicer_layout slices [r; c] names = Ok lay ->
  heatmap_names lay
  = match names with
    | NoNames => map default_name (seq 0 r)
    | NameStr s => [s]
    | NameList l => l
    end.
Proof.
  unfold slicer_layout. intro H.
  apply ZoomFacts.bind_ok in H. destruct H as [[[[[h v] nl] ha] va] [_ H]].
  destruct names; simpl in H; inversion H; reflexivity.
Qed.

Lemma layout_2d_names_witness :
  exists lay,
    slicer_layout "horizontal" [3; 9]%nat NoNames = Ok lay /\
    heatmap_names lay = ["heatmap_0"; "heatmap_1"; "heatmap_2"]%string.
Proof.
  eexists. split; [reflexivity|].
  apply (layout_2d_names "horizontal" 3 9 NoNames _ eq_refl).
Defined.

End SlicerFacts.
